(** * Anyalyzerhub: the dashboard's data shaping, verified

    A shallow embedding of [src/app/dashboard/page.tsx]: the fetch
    orchestrator [fetchGitHubData], the in-place repository sort, the
    language tally ([languageUsage], [donutChartData], [totalLanguages]),
    the pagination slice ([currentRepos], [paginate]) and the summary
    template ([generateAiSummary]).

    JavaScript built-ins the component calls ([Array.prototype.sort],
    [Array.prototype.slice], [Object.keys], property reads and writes on a
    plain object, template literals, [||] and [+]) are modelled after
    ECMAScript in [Module JS].  What ECMAScript leaves to the host (date
    parsing and the local time zone, the text of built-in functions,
    [Math.random]) is the interface [Host]. *)

From Stdlib Require Import ZArith Lia Sorted.
From stdpp Require Import base decidable option numbers list sorting strings pretty gmap.

Set Warnings "-clear-no-such-hyp".

Local Open Scope Z_scope.

(** ** JavaScript values and built-ins *)

Module JS.

(** The values that flow through the component's expressions.  Numbers are
    the integers the API delivers (an integer stands for the double of
    that value); [VMember k] is the member [k] inherited from
    [Object.prototype] (a built-in function, or the prototype object itself
    for [__proto__]). *)
Inductive value : Type :=
  | VUndefined
  | VNull
  | VNaN
  | VNum (n : Z)
  | VStr (s : string)
  | VMember (k : string).

#[global] Instance value_eq_dec : EqDecision value.
Proof. solve_decision. Defined.

(** ToBoolean *)
Definition truthy (v : value) : bool :=
  match v with
  | VUndefined | VNull | VNaN => false
  | VNum n => negb (n =? 0)
  | VStr s => negb (bool_decide (s = ""))
  | VMember _ => true
  end.

(** [a || b] *)
Definition or_else (a b : value) : value := if truthy a then a else b.

(** A field typed [string | null]. *)
Definition of_nullable (o : option string) : value :=
  match o with Some s => VStr s | None => VNull end.

(** A number that may be NaN. *)
Definition of_number (o : option Z) : value :=
  match o with Some n => VNum n | None => VNaN end.

(** [repos[0]?.field]: undefined when the array has no first element. *)
Definition optional_chain {A : Type} (o : option A) (f : A → value) : value :=
  match o with Some a => f a | None => VUndefined end.

(** The names [Object.prototype] defines, which every plain object
    inherits. *)
Definition Object_prototype_names : list string :=
  [ "constructor"; "hasOwnProperty"; "isPrototypeOf"; "propertyIsEnumerable";
    "toLocaleString"; "toString"; "valueOf"; "__proto__";
    "__defineGetter__"; "__defineSetter__"; "__lookupGetter__";
    "__lookupSetter__" ].

End JS.
Export JS.

(** ** What the host decides

    ECMAScript leaves these to the implementation: how a date string that
    is not in its own format is read and what the local time zone is, the
    source text of a built-in function, the random numbers, and the
    digits of a number printed in exponent notation (Number::toString
    asks for the fewest digits that read back as the same number, and
    notes that the last digit is not always determined). *)

Class Host : Type := {
  (** [new Date(s).getTime()], [None] for an invalid date (NaN) *)
  Date_getTime : string → option Z;
  (** [new Date(s).getFullYear()], in the local time zone; [None] is NaN *)
  Date_getFullYear : string → option Z;
  (** the text ToString gives the member [k] of [Object.prototype] *)
  member_text : string → string;
  (** [Math.floor(Math.random() * 50)] at the n-th call of a render *)
  Math_random_50 : nat → Z;
  (** the text of a number of magnitude 1e21 or more, such as [1e+21] *)
  Number_exponent_text : Z → string
}.

Module JSOps.
Section with_host.
Context `{Host}.

(** Number::toString on an integer: decimal digits below 1e21, exponent
    notation from there on. *)
Definition Number_toString (n : Z) : string :=
  if Z.abs n <? 1000000000000000000000 then pretty n
  else Number_exponent_text n.

(** ToString, as a template literal's substitution applies it. *)
Definition to_string (v : value) : string :=
  match v with
  | VUndefined => "undefined"
  | VNull => "null"
  | VNaN => "NaN"
  | VNum n => Number_toString n
  | VStr s => s
  | VMember k => member_text k
  end.

(** [a + b]: string concatenation as soon as one operand is a string or
    an object (whose primitive is its text), numeric addition otherwise
    (null counts 0, undefined and NaN give NaN). *)
Definition add (a b : value) : value :=
  match a, b with
  | VStr _, _ | _, VStr _ | VMember _, _ | _, VMember _ =>
      VStr (to_string a +:+ to_string b)
  | VNum x, VNum y => VNum (x + y)
  | VNum x, VNull => VNum x
  | VNull, VNum y => VNum y
  | VNull, VNull => VNum 0
  | _, _ => VNaN
  end.

End with_host.
End JSOps.
Export JSOps.

(** ** Arrays: sort and slice *)

Section arrays.
Context {A : Type}.

(** SortCompare: the comparator's result, NaN read as +0. *)
Definition SortCompare (comparefn : A → A → option Z) (x y : A) : Z :=
  default 0 (comparefn x y).

(** [x] goes in front of the first element it does not compare greater
    than, so equal elements keep their order. *)
Fixpoint insert_sorted (comparefn : A → A → option Z) (x : A) (l : list A)
    : list A :=
  match l with
  | [] => [x]
  | y :: l' =>
      if SortCompare comparefn x y <=? 0 then x :: y :: l'
      else y :: insert_sorted comparefn x l'
  end.

(** The order [Array.prototype.sort] leaves the elements in.  ECMAScript
    fixes the calls to SortCompare only up to the result, which is the
    stable sorted order whenever the comparator is consistent; a stable
    insertion sort computes it.  With a comparator that is not consistent
    (for the repositories: an [updated_at] that is no date next to two
    different dates) the order is the implementation's, and this function
    is one possible order only: what is proved of the order below asks
    for dates that can be read. *)
Definition sorted_elements (comparefn : A → A → option Z) (l : list A)
    : list A :=
  foldr (insert_sorted comparefn) [] l.

(** Arrays are objects: a store maps a reference to the elements. *)
Definition ref := positive.

(** [a.sort(comparefn)]: reorders the array [a] refers to, in place, and
    returns the same reference. *)
Definition Array_sort (comparefn : A → A → option Z)
    (σ : gmap ref (list A)) (a : ref) : gmap ref (list A) * ref :=
  (alter (sorted_elements comparefn) a σ, a).

(** [l.slice(start, end)]: a negative index counts from the end, both
    are clamped to the length, and a fresh array is returned. *)
Definition Array_slice (l : list A) (start end_ : Z) : list A :=
  let len := Z.of_nat (length l) in
  let k := if start <? 0 then Z.max (len + start) 0 else Z.min start len in
  let final := if end_ <? 0 then Z.max (len + end_) 0 else Z.min end_ len in
  take (Z.to_nat (final - k)) (drop (Z.to_nat k) l).

End arrays.

(** ** The records of the component *)

Record GitHubData : Type := {
  login : string;
  name : option string;        (* read by the code, null when unset *)
  avatar_url : string;
  html_url : string;
  public_repos : Z;
  followers : Z;
  following : Z;
  bio : option string;
  location : option string;
  created_at : string;
  repos_url : string
}.

Record RepoData : Type := {
  id : Z;
  repo_name : string;          (* the field [name] *)
  stargazers_count : Z;
  forks_count : Z;
  language : option string;
  homepage : option string;
  updated_at : string
}.

Section sorter.
Context `{Host}.

(** [(a, b) => new Date(b.updated_at).getTime()
               - new Date(a.updated_at).getTime()] *)
Definition compareRepos (a b : RepoData) : option Z :=
  match Date_getTime (updated_at b), Date_getTime (updated_at a) with
  | Some tb, Some ta => Some (tb - ta)
  | _, _ => None
  end.

(** [reposData.sort(...)], on the elements. *)
Definition sortedRepos (reposData : list RepoData) : list RepoData :=
  sorted_elements compareRepos reposData.

(** [reposData.sort(...)], on the array. *)
Definition sortRepos (σ : gmap ref (list RepoData)) (reposData : ref)
    : gmap ref (list RepoData) * ref :=
  Array_sort compareRepos σ reposData.

(** [updated_at] is a timestamp the host can read. *)
Definition valid_date (r : RepoData) : Prop :=
  is_Some (Date_getTime (updated_at r)).

(** [x] was updated no earlier than [y]. *)
Definition not_older (x y : RepoData) : Prop :=
  match Date_getTime (updated_at x), Date_getTime (updated_at y) with
  | Some tx, Some ty => ty ≤ tx
  | _, _ => False
  end.

Definition updated_at_time (t : Z) (r : RepoData) : Prop :=
  Date_getTime (updated_at r) = Some t.

#[global] Instance updated_at_time_dec t r : Decision (updated_at_time t r).
Proof. unfold updated_at_time. apply _. Defined.

End sorter.

(** ** Plain objects used as maps *)

Section objects.
Context `{Host}.

(** The own properties of an object created by [{}], in creation order;
    its prototype is [Object.prototype]. *)
Definition JSObject : Type := list (string * value).

Fixpoint own_lookup (o : JSObject) (k : string) : option value :=
  match o with
  | [] => None
  | (k', v) :: o' => if bool_decide (k' = k) then Some v else own_lookup o' k
  end.

(** Writing an own property: an existing key keeps its place, a new key
    is created after all others. *)
Fixpoint own_set (o : JSObject) (k : string) (v : value) : JSObject :=
  match o with
  | [] => [(k, v)]
  | (k', v') :: o' =>
      if bool_decide (k' = k) then (k', v) :: o'
      else (k', v') :: own_set o' k v
  end.

(** [o[k]]: the own property, else the inherited member, else
    undefined. *)
Definition Get (o : JSObject) (k : string) : value :=
  match own_lookup o k with
  | Some v => v
  | None =>
      if bool_decide (k ∈ Object_prototype_names) then VMember k
      else VUndefined
  end.

(** [o[k] = v] for a primitive [v]: the inherited [__proto__] setter
    ignores a primitive and creates nothing; any other key becomes an
    own property. *)
Definition Set_ (o : JSObject) (k : string) (v : value) : JSObject :=
  if bool_decide (k = "__proto__") then o else own_set o k v.

(** The value of a string of decimal digits. *)
Definition digit_value (c : Ascii.ascii) : option N :=
  let n := Ascii.N_of_ascii c in
  if ((48 <=? n) && (n <=? 57))%N then Some (n - 48)%N else None.

Fixpoint digits_value (acc : N) (s : string) : option N :=
  match s with
  | EmptyString => Some acc
  | String c s' =>
      match digit_value c with
      | Some d => digits_value (10 * acc + d)%N s'
      | None => None
      end
  end.

(** An array index: the canonical decimal text of an integer from 0 to
    2^32 - 2. *)
Definition array_index (k : string) : option N :=
  match k with
  | EmptyString => None
  | _ =>
      match digits_value 0 k with
      | Some n =>
          if bool_decide (pretty n = k) && (n <=? 4294967294)%N
          then Some n else None
      | None => None
      end
  end.

Definition compare_index (x y : N * string) : option Z :=
  Some (Z.of_N x.1 - Z.of_N y.1).

(** The keys that are array indices, paired with their number. *)
Definition index_keys (ks : list string) : list (N * string) :=
  omap (λ k, (λ n, (n, k)) <$> array_index k) ks.

(** OrdinaryOwnPropertyKeys on string keys: array indices first, in
    ascending numeric order, then the other keys in creation order. *)
Definition order_keys (ks : list string) : list string :=
  (sorted_elements compare_index (index_keys ks)).*2
  ++ filter (λ k, array_index k = None) ks.

Definition Object_keys (o : JSObject) : list string := order_keys o.*1.

End objects.

(** ** Language usage *)

Record LanguageTally : Type := {
  tally_language : string;     (* the field [language] *)
  count : value;
  fill : string
}.

Section aggregator.
Context `{Host}.

(** The reducer of [languageUsage]. *)
Definition tally_step (acc : JSObject) (repo : RepoData) : JSObject :=
  match language repo with
  | Some lang =>
      if truthy (VStr lang)
      then Set_ acc lang (add (or_else (Get acc lang) (VNum 0)) (VNum 1))
      else acc
  | None => acc
  end.

Definition languageUsage (repos : list RepoData) : JSObject :=
  foldl tally_step [] repos.

Definition donutChartData (repos : list RepoData) : list LanguageTally :=
  imap (λ i key,
          {| tally_language := key;
             count := Get (languageUsage repos) key;
             fill := "hsl(0, 0%, "
                     +:+ to_string (VNum (Math_random_50 i + 10)) +:+ "%)" |})
       (Object_keys (languageUsage repos)).

Definition totalLanguages (repos : list RepoData) : value :=
  foldl (λ acc curr, add acc (count curr)) (VNum 0) (donutChartData repos).

(** The repositories counted for the language [k]. *)
Definition uses_language (k : string) (r : RepoData) : Prop :=
  language r = Some k.

#[global] Instance uses_language_dec k r : Decision (uses_language k r).
Proof. unfold uses_language. apply _. Defined.

Definition repos_using (k : string) (repos : list RepoData) : Z :=
  Z.of_nat (length (filter (uses_language k) repos)).

(** A language that is neither null nor the empty string. *)
Definition has_language (r : RepoData) : Prop :=
  ∃ k, language r = Some k ∧ k ≠ "".

#[global] Instance has_language_dec r : Decision (has_language r).
Proof.
  unfold has_language. destruct (language r) as [k|].
  - destruct (decide (k = "")) as [->|Hk].
    + right. intros (k' & Hk' & Hne). by simplify_eq.
    + left. eauto.
  - right. intros (k' & Hk' & _). done.
Defined.

(** The languages that name no member of [Object.prototype]. *)
Definition plain_language (r : RepoData) : Prop :=
  ∀ k, language r = Some k → k ∉ Object_prototype_names.

(** The distinct elements of a list, each at its first occurrence. *)
Fixpoint first_occurrences (ks : list string) : list string :=
  match ks with
  | [] => []
  | k :: ks' => k :: filter (λ k', k' ≠ k) (first_occurrences ks')
  end.

(** The languages of the repositories that have one, in input order. *)
Definition languages_of (repos : list RepoData) : list string :=
  omap (λ r, match language r with
             | Some k => if bool_decide (k = "") then None else Some k
             | None => None
             end) repos.

(** The number an object holds under [k], 0 when it holds none. *)
Definition tally_value (o : JSObject) (k : string) : Z :=
  match own_lookup o k with Some (VNum n) => n | _ => 0 end.

(** Every own property holds a number. *)
Definition numeric (o : JSObject) : Prop :=
  ∀ k v, own_lookup o k = Some v → ∃ n, v = VNum n.

(** Creating the key [k] unless it is there already. *)
Definition add_key (ks : list string) (k : string) : list string :=
  if decide (k ∈ ks) then ks else ks ++ [k].

End aggregator.

(** ** The component's state *)

Record ViewState : Type := {
  username : string;
  data : option GitHubData;
  repos : list RepoData;
  error : string;
  loading : bool;
  currentPage : Z;
  reposPerPage : Z;
  aiSummary : string
}.

(** The [useState] initial values. *)
Definition initialState : ViewState :=
  {| username := ""; data := None; repos := []; error := ""; loading := true;
     currentPage := 1; reposPerPage := 10; aiSummary := "" |}.

Definition setUsername (u : string) (s : ViewState) : ViewState :=
  {| username := u; data := data s; repos := repos s; error := error s;
     loading := loading s; currentPage := currentPage s;
     reposPerPage := reposPerPage s; aiSummary := aiSummary s |}.

Definition setData (d : option GitHubData) (s : ViewState) : ViewState :=
  {| username := username s; data := d; repos := repos s; error := error s;
     loading := loading s; currentPage := currentPage s;
     reposPerPage := reposPerPage s; aiSummary := aiSummary s |}.

Definition setRepos (l : list RepoData) (s : ViewState) : ViewState :=
  {| username := username s; data := data s; repos := l; error := error s;
     loading := loading s; currentPage := currentPage s;
     reposPerPage := reposPerPage s; aiSummary := aiSummary s |}.

Definition setError (e : string) (s : ViewState) : ViewState :=
  {| username := username s; data := data s; repos := repos s; error := e;
     loading := loading s; currentPage := currentPage s;
     reposPerPage := reposPerPage s; aiSummary := aiSummary s |}.

Definition setLoading (b : bool) (s : ViewState) : ViewState :=
  {| username := username s; data := data s; repos := repos s; error := error s;
     loading := b; currentPage := currentPage s;
     reposPerPage := reposPerPage s; aiSummary := aiSummary s |}.

Definition setCurrentPage (n : Z) (s : ViewState) : ViewState :=
  {| username := username s; data := data s; repos := repos s; error := error s;
     loading := loading s; currentPage := n;
     reposPerPage := reposPerPage s; aiSummary := aiSummary s |}.

Definition setAiSummary (t : string) (s : ViewState) : ViewState :=
  {| username := username s; data := data s; repos := repos s; error := error s;
     loading := loading s; currentPage := currentPage s;
     reposPerPage := reposPerPage s; aiSummary := t |}.

(** ** Pagination *)

(** [Math.ceil(a / b)] for a positive [b]; the component's divisor is the
    constant 10. *)
Definition Math_ceil_div (a b : Z) : Z := - ((- a) / b).

Definition indexOfLastRepo (s : ViewState) : Z := currentPage s * reposPerPage s.

Definition indexOfFirstRepo (s : ViewState) : Z :=
  indexOfLastRepo s - reposPerPage s.

Definition currentRepos (s : ViewState) : list RepoData :=
  Array_slice (repos s) (indexOfFirstRepo s) (indexOfLastRepo s).

Definition paginate (pageNumber : Z) (s : ViewState) : ViewState :=
  setCurrentPage pageNumber s.

(** [Math.ceil(repos.length / reposPerPage)] *)
Definition page_count (s : ViewState) : Z :=
  Math_ceil_div (Z.of_nat (length (repos s))) (reposPerPage s).

(** The page numbers of the buttons under the table: [index + 1] for each
    index of [Array.from({ length: page_count })]. *)
Definition page_buttons (s : ViewState) : list Z :=
  (λ index : nat, Z.of_nat index + 1) <$> seq 0 (Z.to_nat (page_count s)).

(** The slice in the words of the contract: the elements at the positions
    from [lo] up to [hi], those past the end of the sequence left out. *)
Definition clipped_slice {A : Type} (l : list A) (lo hi : nat) : list A :=
  omap (λ i, l !! i) (seq lo (hi - lo)).

(** ** The summary sentence *)

Definition dquote : string := String (Ascii.ascii_of_nat 34) EmptyString.


Section summary.
Context `{Host}.

(** [userData.name || userData.login] *)
Definition display_name (userData : GitHubData) : value :=
  or_else (of_nullable (name userData)) (VStr (login userData)).

(** Everything the template writes before the highlighted repository. *)
Definition summary_profile_part (userData : GitHubData) : string :=
  "This GitHub profile belongs to " +:+ to_string (display_name userData)
  +:+ ", who joined GitHub in "
  +:+ to_string (of_number (Date_getFullYear (created_at userData)))
  +:+ ". They have " +:+ to_string (VNum (public_repos userData))
  +:+ " public repositories, " +:+ to_string (VNum (followers userData))
  +:+ " followers, and are following "
  +:+ to_string (VNum (following userData)) +:+ " users.".

(** The clause on [repos[0]]. *)
Definition summary_repo_part (repos : list RepoData) : string :=
  " Their most popular repository is " +:+ dquote
  +:+ to_string (optional_chain (head repos) (λ r, VStr (repo_name r)))
  +:+ dquote +:+ " with "
  +:+ to_string (optional_chain (head repos) (λ r, VNum (stargazers_count r)))
  +:+ " stars.".

(** The template literal of [generateAiSummary]. *)
Definition summary_text (userData : GitHubData) (repos : list RepoData)
    : string :=
  summary_profile_part userData +:+ summary_repo_part repos.

Definition generateAiSummary (userData : GitHubData) (repos : list RepoData)
    (s : ViewState) : ViewState :=
  setAiSummary (summary_text userData repos) s.

End summary.

(** ** The network and asynchronous steps *)

(** How a promise ends: fulfilled, rejected with an error whose [message]
    is kept, or never settled. *)
Inductive Settled (A : Type) : Type :=
  | Fulfilled (a : A)
  | Rejected (message : string)
  | Pending.
Arguments Fulfilled {A} a.
Arguments Rejected {A} message.
Arguments Pending {A}.

Record Response (A : Type) : Type := {
  ok : bool;
  json : Settled A
}.
Arguments ok {A} r.
Arguments json {A} r.

(** What the remote API answers to a GET of a URL, at the time of one
    search. *)
Record Network : Type := {
  user_endpoint : string → Settled (Response GitHubData);
  repos_endpoint : string → Settled (Response (list RepoData))
}.

(** The state a search runs in: the component's state and the URLs
    requested so far. *)
Record Sys : Type := {
  view : ViewState;
  requests : list string
}.

(** How far an [async] body gets: to its end, to a [throw], or to an
    [await] that never resumes. *)
Inductive Outcome (A : Type) : Type :=
  | Returned (a : A)
  | Thrown (message : string)
  | Suspended.
Arguments Returned {A} a.
Arguments Thrown {A} message.
Arguments Suspended {A}.

Definition Proc (A : Type) : Type := Sys → Outcome A * Sys.

#[global] Instance Proc_ret : MRet Proc := λ A a σ, (Returned a, σ).

#[global] Instance Proc_bind : MBind Proc := λ A B k m σ,
  match m σ with
  | (Returned a, σ') => k a σ'
  | (Thrown e, σ') => (Thrown e, σ')
  | (Suspended, σ') => (Suspended, σ')
  end.

(** [throw new Error(message)] *)
Definition throw {A : Type} (message : string) : Proc A :=
  λ σ, (Thrown message, σ).

(** A state setter. *)
Definition update (f : ViewState → ViewState) : Proc unit :=
  λ σ, (Returned (), {| view := f (view σ); requests := requests σ |}).

Definition get_view : Proc ViewState := λ σ, (Returned (view σ), σ).

(** [await p] *)
Definition await {A : Type} (p : Settled A) : Proc A :=
  λ σ, match p with
       | Fulfilled a => (Returned a, σ)
       | Rejected e => (Thrown e, σ)
       | Pending => (Suspended, σ)
       end.

(** [await fetch(url)]: the request is issued, then awaited. *)
Definition fetch {A : Type} (endpoint : string → Settled (Response A))
    (url : string) : Proc (Response A) :=
  λ σ, await (endpoint url)
             {| view := view σ; requests := requests σ ++ [url] |}.

(** [try body catch (err) handler(err.message) finally finalizer].  The
    finalizer runs when the body or the handler completes or throws, and
    not while an await inside them is still pending. *)
Definition try_catch_finally (body : Proc unit) (handler : string → Proc unit)
    (finalizer : Proc unit) : Proc unit :=
  λ σ,
    match body σ with
    | (Returned _, σ') => finalizer σ'
    | (Thrown e, σ') =>
        match handler e σ' with
        | (Returned _, σ'') => finalizer σ''
        | (Thrown e', σ'') => (finalizer ;; throw e') σ''
        | (Suspended, σ'') => (Suspended, σ'')
        end
    | (Suspended, σ') => (Suspended, σ')
    end.

Section orchestrator.
Context `{Host}.

(** [`https://api.github.com/users/${username}`] *)
Definition profile_url (username : string) : string :=
  "https://api.github.com/users/" +:+ username.

Definition fetchGitHubData (net : Network) : Proc unit :=
  s ← get_view;
  if bool_decide (username s = "") then mret ()
  else
    update (setError "");;
    update (setData None);;
    update (setRepos []);;
    update (setAiSummary "");;
    try_catch_finally
      (res ← fetch (user_endpoint net) (profile_url (username s));
       if negb (ok res) then throw "User not found"
       else
         userData ← await (json res);
         reposRes ← fetch (repos_endpoint net) (repos_url userData);
         if negb (ok reposRes) then throw "Repositories not found"
         else
           reposData ← await (json reposRes);
           let sorted := sortedRepos reposData in
           update (setData (Some userData));;
           update (setRepos sorted);;
           update (generateAiSummary userData sorted))
      (λ message, update (setError message))
      (update (setLoading false)).

(** One search started from the view [s]: the view once the search has
    run as far as it gets, and the requests it issued.  Here searches run
    one after the other; searches that overlap are the subject of
    [on_event] further down. *)
Definition search (net : Network) (s : ViewState) : Sys :=
  (fetchGitHubData net {| view := s; requests := [] |}).2.

(** The search ran to its end (no request was left hanging). *)
Definition completes (net : Network) (s : ViewState) : Prop :=
  ∃ r σ, fetchGitHubData net {| view := s; requests := [] |} = (r, σ)
         ∧ r ≠ Suspended.

(** What the user can do: type into the input, press the search button,
    press a page button. *)
Inductive Action : Type :=
  | TypeUsername (u : string)
  | ClickSearch (net : Network)
  | ClickPage (pageNumber : Z).

(** The page buttons are rendered once loading is over and a profile is
    present. *)
Definition page_button_shown (pageNumber : Z) (s : ViewState) : bool :=
  negb (loading s) && bool_decide (is_Some (data s))
  && bool_decide (pageNumber ∈ page_buttons s).

Definition step (s : ViewState) (a : Action) : ViewState :=
  match a with
  | TypeUsername u => setUsername u s
  | ClickSearch net => view (search net s)
  | ClickPage n => if page_button_shown n s then paginate n s else s
  end.

Definition run (s : ViewState) (actions : list Action) : ViewState :=
  foldl step s actions.

(** The first invariant of the data model, as the specification words
    it. *)
Definition page_in_range (s : ViewState) : Prop :=
  1 ≤ currentPage s ≤ page_count s.

End orchestrator.

(** ** A host for running the component on examples

    Modelled from ECMAScript's date-time string format: the forms
    [YYYY-MM-DD] and [YYYY-MM-DDTHH:mm:ssZ] (the form the API sends), read
    as UTC, with UTC as the local time zone; anything else is an invalid
    date.  Numbers from 1e21 on are printed with the fewest digits that
    read back as the same double. *)

Module UTC.

Definition number_at (s : string) (start len : nat) : option Z :=
  let t := String.substring start len s in
  if bool_decide (String.length t = len)
  then Z.of_N <$> digits_value 0 t else None.

Definition char_at (s : string) (i : nat) (c : string) : bool :=
  bool_decide (String.substring i 1 s = c).

Definition leap_year (y : Z) : bool :=
  ((y mod 4 =? 0) && negb (y mod 100 =? 0)) || (y mod 400 =? 0).

Definition days_in_month (y m : Z) : Z :=
  if m =? 2 then (if leap_year y then 29 else 28)
  else if (m =? 4) || (m =? 6) || (m =? 9) || (m =? 11) then 30 else 31.

(** Days from 1970-01-01 to the given civil date. *)
Definition days_from_civil (y m d : Z) : Z :=
  let y' := if m <=? 2 then y - 1 else y in
  let era := y' / 400 in
  let yoe := y' - era * 400 in
  let doy := (153 * (if 2 <? m then m - 3 else m + 9) + 2) / 5 + d - 1 in
  let doe := yoe * 365 + yoe / 4 - yoe / 100 + doy in
  era * 146097 + doe - 719468.

(** The civil year of a day counted from 1970-01-01. *)
Definition year_from_days (z : Z) : Z :=
  let z' := z + 719468 in
  let era := z' / 146097 in
  let doe := z' - era * 146097 in
  let yoe := (doe - doe / 1460 + doe / 36524 - doe / 146096) / 365 in
  let doy := doe - (365 * yoe + yoe / 4 - yoe / 100) in
  let mp := (5 * doy + 2) / 153 in
  let m := if mp <? 10 then mp + 3 else mp - 9 in
  if m <=? 2 then yoe + era * 400 + 1 else yoe + era * 400.

Definition parse_date (s : string) : option Z :=
  if char_at s 4 "-" && char_at s 7 "-" then
    y ← number_at s 0 4; m ← number_at s 5 2; d ← number_at s 8 2;
    if (1 <=? m) && (m <=? 12) && (1 <=? d) && (d <=? days_in_month y m)
    then Some (days_from_civil y m d) else None
  else None.

Definition parse_time (s : string) : option Z :=
  if char_at s 10 "T" && char_at s 13 ":" && char_at s 16 ":" && char_at s 19 "Z"
  then
    h ← number_at s 11 2; mi ← number_at s 14 2; sec ← number_at s 17 2;
    if (h <=? 23) && (mi <=? 59) && (sec <=? 59)
    then Some ((h * 3600 + mi * 60 + sec) * 1000) else None
  else None.

(** Milliseconds since the epoch. *)
Definition getTime (s : string) : option Z :=
  if bool_decide (String.length s = 10%nat) then
    (λ days, days * 86400000) <$> parse_date s
  else if bool_decide (String.length s = 20%nat) then
    days ← parse_date (String.substring 0 10 s);
    ms ← parse_time s;
    Some (days * 86400000 + ms)
  else None.

Definition getFullYear (s : string) : option Z :=
  (λ t, year_from_days (t / 86400000)) <$> getTime s.

Definition builtin_text (k : string) : string :=
  if bool_decide (k = "__proto__") then "[object Object]"
  else if bool_decide (k = "constructor")
       then "function Object() { [native code] }"
       else "function " +:+ k +:+ "() { [native code] }".

(** The exponent notation of a positive integer that is a double: the
    fewest digits [s], scaled by a power of ten [10^q], that lie in the
    interval of the reals rounding to [x]; of two candidates the closer
    one. *)
Definition rounds_to (x y : Z) : bool :=
  let e := Z.log2 x - 52 in
  let m := x / 2 ^ e in
  let up := 2 ^ (e - 1) in
  let down := if m =? 2 ^ 52 then 2 ^ (e - 2) else 2 ^ (e - 1) in
  if Z.even m then (x - down <=? y) && (y <=? x + up)
  else (x - down <? y) && (y <? x + up).

Definition digits_at (x n k : Z) : option (Z * Z) :=
  let q := n - k in
  let lo := x / 10 ^ q in
  let hi := lo + 1 in
  match rounds_to x (lo * 10 ^ q), rounds_to x (hi * 10 ^ q) with
  | true, true =>
      if x - lo * 10 ^ q <=? hi * 10 ^ q - x then Some (lo, q) else Some (hi, q)
  | true, false => Some (lo, q)
  | false, true => Some (hi, q)
  | false, false => None
  end.

Fixpoint shortest_digits (x n : Z) (ks : list Z) : Z * Z :=
  match ks with
  | [] => (x, 0)
  | k :: ks' =>
      match digits_at x n k with
      | Some sq => sq
      | None => shortest_digits x n ks'
      end
  end.

Fixpoint strip_zeros (fuel : nat) (s q : Z) : Z * Z :=
  match fuel with
  | O => (s, q)
  | S fuel' =>
      if (s mod 10 =? 0) && negb (s =? 0) then strip_zeros fuel' (s / 10) (q + 1)
      else (s, q)
  end.

Definition exponent_text_positive (x : Z) : string :=
  let n := Z.of_nat (String.length (pretty x)) in
  let '(s0, q0) := shortest_digits x n (seqZ 1 17) in
  let '(s, q) := strip_zeros 25 s0 q0 in
  let ds := pretty s in
  let e := q + Z.of_nat (String.length ds) - 1 in
  String.substring 0 1 ds
  +:+ (if bool_decide (String.length ds = 1%nat) then ""
       else "." +:+ String.substring 1 (String.length ds - 1) ds)
  +:+ "e+" +:+ pretty e.

Definition exponent_text (x : Z) : string :=
  if x <? 0 then "-" +:+ exponent_text_positive (- x)
  else exponent_text_positive x.

#[global] Instance host : Host := {|
  Date_getTime := getTime;
  Date_getFullYear := getFullYear;
  member_text := builtin_text;
  Math_random_50 := λ _, 0;
  Number_exponent_text := exponent_text
|}.

End UTC.

(** ** What is on the screen

    The JSX the component returns, as data: which of its conditional parts
    are rendered, and with which texts. *)

Record ProfileCard : Type := {
  heading : string;              (* [data.name || data.login] *)
  handle : string;               (* [@{data.login}] *)
  bio_text : string;             (* [data.bio || "No bio available"] *)
  location_line : option string  (* [data.location && ...] *)
}.

Record BarEntry : Type := {
  bar_name : string;
  bar_stars : Z;
  bar_forks : Z
}.

Record TableRow : Type := {
  row_key : Z;
  cell_name : string;
  cell_stars : Z;
  cell_forks : Z;
  cell_language : string;
  cell_homepage : string
}.

Record PageButton : Type := {
  button_key : nat;
  button_variant : string;
  button_label : Z
}.

Record ProfileView : Type := {
  card : ProfileCard;
  info_cards : list (value * string);
  donut : list LanguageTally;
  donut_total : value;
  bars : list BarEntry;
  rows : list TableRow;
  buttons : list PageButton;
  summary_card : string
}.

(** [loading ? skeleton : data && (profile view)] *)
Inductive Screen : Type :=
  | Skeleton
  | Blank
  | Profile (v : ProfileView).

Record Page : Type := {
  error_line : option string;    (* [error && <p>{error}</p>] *)
  body : Screen
}.

(** The view a search shows while it waits: the four cleared fields. *)
Definition cleared (s : ViewState) : ViewState :=
  setAiSummary "" (setRepos [] (setData None (setError "" s))).

(** [n] times the digit 1. *)
Fixpoint ones (n : nat) : string :=
  match n with
  | O => ""
  | S n' => ones n' +:+ "1"
  end.

(** [value.slice(0, 3)], the tick formatter of the bar chart. *)
Definition tick_label (value : string) : string := String.substring 0 3 value.

Section rendering.
Context `{Host}.

Definition profile_card (d : GitHubData) : ProfileCard :=
  {| heading := to_string (display_name d);
     handle := "@" +:+ login d;
     bio_text := to_string (or_else (of_nullable (bio d))
                              (VStr "No bio available"));
     location_line :=
       if truthy (of_nullable (location d)) then location d else None |}.

(** The four cards made by [Array.from({ length: 4 }).map((_, index) => ...)]. *)
Definition info_card (d : GitHubData) (index : nat) : value * string :=
  (if bool_decide (index = 0%nat) then VNum (public_repos d)
   else if bool_decide (index = 1%nat) then VNum (followers d)
   else if bool_decide (index = 2%nat) then VNum (following d)
   else of_number (Date_getFullYear (created_at d)),
   if bool_decide (index = 0%nat) then "Public Repos"
   else if bool_decide (index = 1%nat) then "Followers"
   else if bool_decide (index = 2%nat) then "Following"
   else "Joined").

Definition barChartData (repos : list RepoData) : list BarEntry :=
  (λ repo, {| bar_name := repo_name repo;
              bar_stars := stargazers_count repo;
              bar_forks := forks_count repo |}) <$> repos.

(** One table row per repository of the current page. *)
Definition table_row (repo : RepoData) : TableRow :=
  {| row_key := id repo;
     cell_name := repo_name repo;
     cell_stars := stargazers_count repo;
     cell_forks := forks_count repo;
     cell_language := to_string (or_else (of_nullable (language repo))
                                   (VStr "N/A"));
     cell_homepage :=
       if truthy (of_nullable (homepage repo)) then "Visit" else "N/A" |}.

Definition table_rows (s : ViewState) : list TableRow :=
  table_row <$> currentRepos s.

(** One button per page; the button of the current page has the variant
    [default]. *)
Definition pagination_buttons (s : ViewState) : list PageButton :=
  (λ index : nat,
     {| button_key := index;
        button_variant :=
          if bool_decide (currentPage s = Z.of_nat index + 1)
          then "default" else "outline";
        button_label := Z.of_nat index + 1 |})
  <$> seq 0 (Z.to_nat (page_count s)).

(** [aiSummary ? aiSummary : "No summary available."] *)
Definition summary_shown (s : ViewState) : string :=
  if truthy (VStr (aiSummary s)) then aiSummary s
  else "No summary available.".

Definition profile_view (d : GitHubData) (s : ViewState) : ProfileView :=
  {| card := profile_card d;
     info_cards := info_card d <$> seq 0 4;
     donut := donutChartData (repos s);
     donut_total := totalLanguages (repos s);
     bars := barChartData (repos s);
     rows := table_rows s;
     buttons := pagination_buttons s;
     summary_card := summary_shown s |}.

Definition render (s : ViewState) : Page :=
  {| error_line := if truthy (VStr (error s)) then Some (error s) else None;
     body := if loading s then Skeleton
             else match data s with
                  | Some d => Profile (profile_view d s)
                  | None => Blank
                  end |}.


End rendering.

(** ** Searches that overlap

    [fetchGitHubData] is an [async] function: it runs up to its next
    [await] and gives control back, and it goes on when the awaited promise
    settles.  Nothing cancels a search, so the continuation of an earlier
    search can run after a later search has started or ended.  Here a
    search is a task that remembers which [await] it stands at, and the
    settling of a promise is an event of its own.  The view is what is
    rendered between two events: the setters called in one stretch of
    code take effect together, as React applies them in one batch. *)

(** The four [await]s of [fetchGitHubData], with the constants in scope. *)
Inductive Awaiting : Type :=
  | AwaitingProfile (url : string)
  | AwaitingProfileBody (res : Response GitHubData)
  | AwaitingRepos (userData : GitHubData)
  | AwaitingReposBody (userData : GitHubData)
      (reposRes : Response (list RepoData)).

(** A search in flight: the answers the network has for it, and where it
    waits. *)
Record Task : Type := {
  task_network : Network;
  awaiting : Awaiting
}.

(** The component with its searches in flight. *)
Record App : Type := {
  app_view : ViewState;
  app_tasks : list Task;
  app_requests : list string
}.

(** What can happen: the user acts, or the promise the [i]-th search in
    flight waits for settles and the search goes on to its next [await]
    or to its end. *)
Inductive Event : Type :=
  | User (a : Action)
  | Settle (i : nat).

(** [catch (err) { setError(err.message) } finally { setLoading(false) }] *)
Definition caught (message : string) (v : ViewState) : ViewState :=
  setLoading false (setError message v).

Section overlapping.
Context `{Host}.

(** The stretch of [fetchGitHubData] between one [await] and the next:
    the task left (none when the function has returned), the view, and
    the request issued on the way. *)
Definition resume (t : Task) (v : ViewState)
    : option Task * ViewState * list string :=
  let net := task_network t in
  match awaiting t with
  | AwaitingProfile url =>
      match user_endpoint net url with
      | Pending => (Some t, v, [])
      | Rejected e => (None, caught e v, [])
      | Fulfilled res =>
          if negb (ok res) then (None, caught "User not found" v, [])
          else (Some {| task_network := net;
                        awaiting := AwaitingProfileBody res |}, v, [])
      end
  | AwaitingProfileBody res =>
      match json res with
      | Pending => (Some t, v, [])
      | Rejected e => (None, caught e v, [])
      | Fulfilled userData =>
          (Some {| task_network := net; awaiting := AwaitingRepos userData |},
           v, [repos_url userData])
      end
  | AwaitingRepos userData =>
      match repos_endpoint net (repos_url userData) with
      | Pending => (Some t, v, [])
      | Rejected e => (None, caught e v, [])
      | Fulfilled reposRes =>
          if negb (ok reposRes)
          then (None, caught "Repositories not found" v, [])
          else (Some {| task_network := net;
                        awaiting := AwaitingReposBody userData reposRes |},
                v, [])
      end
  | AwaitingReposBody userData reposRes =>
      match json reposRes with
      | Pending => (Some t, v, [])
      | Rejected e => (None, caught e v, [])
      | Fulfilled reposData =>
          let sorted := sortedRepos reposData in
          (None,
           setLoading false
             (generateAiSummary userData sorted
                (setRepos sorted (setData (Some userData) v))),
           [])
      end
  end.

(** The search button: the part of [fetchGitHubData] before its first
    [await]. *)
Definition start_search (net : Network) (app : App) : App :=
  if bool_decide (username (app_view app) = "") then app
  else
    {| app_view := cleared (app_view app);
       app_tasks :=
         app_tasks app
         ++ [{| task_network := net;
                awaiting :=
                  AwaitingProfile (profile_url (username (app_view app))) |}];
       app_requests :=
         app_requests app ++ [profile_url (username (app_view app))] |}.

Definition settle (i : nat) (app : App) : App :=
  match app_tasks app !! i with
  | None => app
  | Some t =>
      let '(t', v, issued) := resume t (app_view app) in
      {| app_view := v;
         app_tasks := match t' with
                      | Some t'' => <[i := t'']> (app_tasks app)
                      | None => delete i (app_tasks app)
                      end;
         app_requests := app_requests app ++ issued |}
  end.

Definition on_event (app : App) (e : Event) : App :=
  match e with
  | User (ClickSearch net) => start_search net app
  | User a =>
      {| app_view := step (app_view app) a;
         app_tasks := app_tasks app;
         app_requests := app_requests app |}
  | Settle i => settle i app
  end.

Definition initialApp : App :=
  {| app_view := initialState; app_tasks := []; app_requests := [] |}.

Definition play (events : list Event) : App := foldl on_event initialApp events.

(** What holds of the view whatever happens in whatever order. *)
Definition coherent (v : ViewState) : Prop :=
  reposPerPage v = 10
  ∧ 1 ≤ currentPage v
  ∧ (error v ≠ "" → loading v = false)
  ∧ match data v with
    | Some d => loading v = false ∧ aiSummary v = summary_text d (repos v)
    | None => repos v = [] ∧ aiSummary v = ""
    end.

End overlapping.

(** ** Concrete inputs *)

Module Examples.

Definition mkRepo (n : string) (stars : Z) (lang : option string)
    (updated : string) : RepoData :=
  {| id := 0; repo_name := n; stargazers_count := stars; forks_count := 0;
     language := lang; homepage := None; updated_at := updated |}.

(** The profile and the two repositories of the specification's scenario. *)
Definition ada : GitHubData :=
  {| login := "ada"; name := None; avatar_url := ""; html_url := "";
     public_repos := 2; followers := 10; following := 1; bio := None;
     location := None; created_at := "2015-06-01";
     repos_url := "https://api.github.com/users/ada/repos" |}.

Definition repoA : RepoData := mkRepo "A" 5 (Some "TypeScript") "2023-01-01".
Definition repoB : RepoData := mkRepo "B" 20 (Some "1") "2024-01-01".

Definition repoC : RepoData := mkRepo "C" 1 (Some "Rust") "2021-01-01".

(** A repository whose language is the empty string. *)
Definition repoE : RepoData := mkRepo "E" 0 (Some "") "2022-01-01".

(** An API that knows one user with the given repositories. *)
Definition serving (userData : GitHubData) (l : list RepoData) : Network :=
  {| user_endpoint := λ _, Fulfilled {| ok := true; json := Fulfilled userData |};
     repos_endpoint := λ _, Fulfilled {| ok := true; json := Fulfilled l |} |}.

(** An API that answers 404 to the profile request. *)
Definition no_user : Network :=
  {| user_endpoint := λ _, Fulfilled {| ok := false; json := Rejected "" |};
     repos_endpoint := λ _, Fulfilled {| ok := false; json := Rejected "" |} |}.

(** An API that knows the user and answers 404 to the repository request. *)
Definition no_repos (userData : GitHubData) : Network :=
  {| user_endpoint := λ _, Fulfilled {| ok := true; json := Fulfilled userData |};
     repos_endpoint := λ _, Fulfilled {| ok := false; json := Rejected "" |} |}.


(** The view after typing a user name into a fresh component. *)
Definition typed (u : string) : ViewState := setUsername u initialState.

(** Eleven repositories: two pages. *)
Definition eleven : list RepoData := replicate 11 repoA.

(** The view after a search that loaded the eleven repositories. *)
Definition loaded : ViewState :=
  run initialState [TypeUsername "ada"; ClickSearch (serving ada eleven)].

(** One array in the store, holding the scenario's repositories in the
    order the API sent them. *)
Definition store : gmap ref (list RepoData) := {[ 1%positive := [repoA; repoB] ]}.

(** An API that cannot be reached: the request is rejected. *)
Definition offline : Network :=
  {| user_endpoint := λ _, Rejected "Failed to fetch";
     repos_endpoint := λ _, Rejected "Failed to fetch" |}.

(** An API that knows the user and never answers the repository request. *)
Definition hanging_repos (userData : GitHubData) : Network :=
  {| user_endpoint := λ _, Fulfilled {| ok := true; json := Fulfilled userData |};
     repos_endpoint := λ _, Pending |}.

(** The view after two pages were loaded, page 2 was opened, and a second
    search loaded a single repository. *)
Definition stale : ViewState :=
  run loaded [ClickPage 2; TypeUsername "bob"; ClickSearch (serving ada [repoA])].

(** A user types ada and searches, then types nobody and searches; the
    second search fails first, then the first search's answers arrive. *)
Definition overtaken : list Event :=
  [User (TypeUsername "ada"); User (ClickSearch (serving ada [repoA; repoB]));
   User (TypeUsername "nobody"); User (ClickSearch no_user);
   Settle 1; Settle 0; Settle 0; Settle 0; Settle 0].

(** A repository whose language names a member of [Object.prototype]. *)
Definition repoT : RepoData := mkRepo "T" 3 (Some "toString") "2020-01-01".

End Examples.

(** * Properties *)

(** ** The example host *)

Example getTime_date : UTC.getTime "2015-06-01" = Some 1433116800000.
Proof. by vm_compute. Qed.

Example getTime_date_time :
  UTC.getTime "2024-02-29T12:00:00Z" = Some 1709208000000.
Proof. by vm_compute. Qed.

Example getTime_invalid : UTC.getTime "2015-6-1" = None.
Proof. by vm_compute. Qed.

Example getFullYear_end_of_year :
  UTC.getFullYear "2024-12-31T23:59:59Z" = Some 2024.
Proof. by vm_compute. Qed.

Example array_index_examples :
  array_index <$> ["0"; "01"; "42"; "4294967294"; "4294967295"; "1e3"; "-1"]
  = [Some 0%N; None; Some 42%N; Some 4294967294%N; None; None; None].
Proof. by vm_compute. Qed.

(** Below 1e21 a number is printed digit by digit, from 1e21 on in
    exponent notation. *)
Example Number_toString_examples :
  Number_toString (10 ^ 21 - 131072) = "999999999999999868928"
  ∧ Number_toString (10 ^ 21) = "1e+21"
  ∧ Number_toString (2 ^ 70) = "1.1805916207174113e+21"
  ∧ Number_toString (- 2 ^ 80) = "-1.2089258196146292e+24".
Proof. by vm_compute. Qed.

(** A language that names a member of [Object.prototype] is tallied as
    text, and [__proto__] is not tallied at all. *)
Example inherited_member_tally :
  languageUsage [Examples.mkRepo "X" 0 (Some "constructor") "2020-01-01";
                 Examples.mkRepo "Y" 0 (Some "__proto__") "2020-01-01";
                 Examples.mkRepo "Z" 0 (Some "constructor") "2020-01-01"]
  = [("constructor", VStr "function Object() { [native code] }11")].
Proof. by vm_compute. Qed.

(** ** The sort *)

Section sort_facts.
Context {A : Type} (comparefn : A → A → option Z).

Lemma insert_sorted_perm (x : A) (l : list A) :
  insert_sorted comparefn x l ≡ₚ x :: l.
Proof.
  induction l as [|y l IH]; simpl; [done|].
  destruct (SortCompare comparefn x y <=? 0); [done|].
  rewrite IH. apply Permutation_swap.
Qed.

Lemma sorted_elements_cons (x : A) (l : list A) :
  sorted_elements comparefn (x :: l)
  = insert_sorted comparefn x (sorted_elements comparefn l).
Proof. reflexivity. Qed.

Lemma sorted_elements_perm (l : list A) : sorted_elements comparefn l ≡ₚ l.
Proof.
  induction l as [|x l IH]; [done|].
  by rewrite sorted_elements_cons, insert_sorted_perm, IH.
Qed.

(** An element only moves past elements it compares greater than, so a
    class of elements none of which compares greater than another keeps its
    order. *)
Lemma insert_sorted_filter (P : A → Prop) `{!∀ x, Decision (P x)}
    (x : A) (l : list A) :
  (∀ y, P x → P y → SortCompare comparefn x y ≤ 0) →
  filter P (insert_sorted comparefn x l) = filter P (x :: l).
Proof.
  intros Hle. induction l as [|y l IH]; simpl; [done|].
  destruct (Z.leb_spec (SortCompare comparefn x y) 0) as [Hxy|Hxy]; [done|].
  rewrite filter_cons, IH, !filter_cons.
  destruct (decide (P y)) as [Hy|Hy]; destruct (decide (P x)) as [Hx|Hx];
    try done.
  specialize (Hle y Hx Hy). lia.
Qed.

Lemma sorted_elements_filter (P : A → Prop) `{!∀ x, Decision (P x)}
    (l : list A) :
  (∀ x y, P x → P y → SortCompare comparefn x y ≤ 0) →
  filter P (sorted_elements comparefn l) = filter P l.
Proof.
  intros Hle. induction l as [|x l IH]; [done|].
  rewrite sorted_elements_cons, insert_sorted_filter by eauto.
  by rewrite !filter_cons, IH.
Qed.

Lemma insert_sorted_strongly (R : A → A → Prop) `{!Transitive R}
    (x : A) (l : list A) :
  (∀ y, y ∈ l → SortCompare comparefn x y ≤ 0 → R x y) →
  (∀ y, y ∈ l → 0 < SortCompare comparefn x y → R y x) →
  StronglySorted R l →
  StronglySorted R (insert_sorted comparefn x l).
Proof.
  intros Hle Hgt. induction 1 as [|y l Hl IH Hy]; simpl.
  { repeat constructor. }
  destruct (Z.leb_spec (SortCompare comparefn x y) 0) as [Hxy|Hxy].
  - assert (R x y) as Rxy by (apply Hle; [left|done]).
    apply SSorted_cons; [by apply SSorted_cons|].
    constructor; [done|].
    eapply Forall_impl; [exact Hy|]. intros z Hz. by transitivity y.
  - apply SSorted_cons.
    + apply IH; intros z Hz; [apply Hle|apply Hgt]; by right.
    + rewrite insert_sorted_perm. constructor; [|done].
      apply Hgt; [left|done].
Qed.

End sort_facts.

Section sorter_facts.
Context `{Host}.

Lemma not_older_trans : Transitive not_older.
Proof.
  intros x y z. unfold not_older.
  destruct (Date_getTime (updated_at x)), (Date_getTime (updated_at y)),
    (Date_getTime (updated_at z)); try done. lia.
Qed.

Lemma sortedRepos_perm (l : list RepoData) : sortedRepos l ≡ₚ l.
Proof. apply sorted_elements_perm. Qed.

Lemma sortedRepos_length (l : list RepoData) :
  length (sortedRepos l) = length l.
Proof. by rewrite sortedRepos_perm. Qed.

Lemma sortedRepos_sorted (l : list RepoData) :
  Forall valid_date l → StronglySorted not_older (sortedRepos l).
Proof.
  induction 1 as [|x l [tx Hx] Hl IH]; [constructor|].
  unfold sortedRepos in *. rewrite sorted_elements_cons.
  assert (∀ y, y ∈ l → valid_date y) as Hvalid.
  { intros y Hy. by eapply Forall_forall in Hl. }
  apply insert_sorted_strongly; [apply not_older_trans| | |done].
  - intros y Hy. rewrite sorted_elements_perm in Hy.
    destruct (Hvalid y) as [ty Hty]; [done|].
    unfold SortCompare, compareRepos, not_older. rewrite Hx, Hty. simpl. lia.
  - intros y Hy. rewrite sorted_elements_perm in Hy.
    destruct (Hvalid y) as [ty Hty]; [done|].
    unfold SortCompare, compareRepos, not_older. rewrite Hx, Hty. simpl. lia.
Qed.

Lemma sortedRepos_stable (t : Z) (l : list RepoData) :
  filter (updated_at_time t) (sortedRepos l) = filter (updated_at_time t) l.
Proof.
  apply sorted_elements_filter. intros x y Hx Hy.
  unfold SortCompare, compareRepos. unfold updated_at_time in *.
  rewrite Hx, Hy. simpl. lia.
Qed.

End sorter_facts.

Section sorter_claim.
Context `{Host}.

(** C3 (as amended).  For every array of repositories whose [updated_at]
    the host reads as a date, the sort leaves in the same array a
    permutation of its elements, of equal length, ordered most recently
    updated first, with repositories updated at the same instant in their
    original relative order; it returns the array it was given, so the
    input is overwritten. *)
Theorem sortRepos_sorts_in_place (σ : gmap ref (list RepoData)) (a : ref)
    (l : list RepoData) :
  σ !! a = Some l →
  Forall valid_date l →
  sortRepos σ a = (<[a := sortedRepos l]> σ, a)
  ∧ sortedRepos l ≡ₚ l
  ∧ length (sortedRepos l) = length l
  ∧ StronglySorted not_older (sortedRepos l)
  ∧ ∀ t, filter (updated_at_time t) (sortedRepos l)
         = filter (updated_at_time t) l.
Proof.
  intros Ha Hvalid. split_and!.
  - unfold sortRepos, Array_sort. f_equal. apply map_eq. intros i.
    rewrite lookup_alter, lookup_insert. case_decide; [|done].
    subst i. by rewrite Ha.
  - apply sortedRepos_perm.
  - apply sortedRepos_length.
  - by apply sortedRepos_sorted.
  - intros t. apply sortedRepos_stable.
Qed.

End sorter_claim.

Lemma sortRepos_sorts_in_place_witness :
  sortRepos Examples.store 1%positive
  = (<[1%positive := sortedRepos [Examples.repoA; Examples.repoB]]> Examples.store,
     1%positive)
  ∧ sortedRepos [Examples.repoA; Examples.repoB]
    ≡ₚ [Examples.repoA; Examples.repoB]
  ∧ length (sortedRepos [Examples.repoA; Examples.repoB]) = 2%nat
  ∧ StronglySorted not_older (sortedRepos [Examples.repoA; Examples.repoB])
  ∧ ∀ t, filter (updated_at_time t) (sortedRepos [Examples.repoA; Examples.repoB])
         = filter (updated_at_time t) [Examples.repoA; Examples.repoB].
Proof.
  apply (sortRepos_sorts_in_place Examples.store 1%positive
           [Examples.repoA; Examples.repoB]).
  - reflexivity.
  - repeat constructor; vm_compute; eauto.
Defined.

(** C3 as stated fails: the array the sorter is given is reordered. *)
Lemma sortRepos_mutates_input :
  (sortRepos Examples.store 1%positive).1 !! 1%positive
  = Some [Examples.repoB; Examples.repoA]
  ∧ (sortRepos Examples.store 1%positive).1 !! 1%positive
    ≠ Examples.store !! 1%positive.
Proof. split; [reflexivity|]. vm_compute. discriminate. Qed.

(** ** The page slice *)

Section slices.
Context {A : Type}.
Implicit Types l : list A.

Lemma take_sum l (n m : nat) :
  take (n + m) l = take n l ++ take m (drop n l).
Proof.
  revert l. induction n as [|n IH]; intros [|x l]; simpl; try done.
  - by rewrite take_nil.
  - by rewrite IH.
Qed.

(** With both indices non-negative and in order, [slice] takes
    [hi - lo] elements after dropping [lo]. *)
Lemma Array_slice_take_drop l (lo hi : Z) :
  0 ≤ lo ≤ hi →
  Array_slice l lo hi
  = take (Z.to_nat hi - Z.to_nat lo) (drop (Z.to_nat lo) l).
Proof.
  intros Hlohi. unfold Array_slice.
  destruct (Z.ltb_spec lo 0) as [?|_]; [lia|].
  destruct (Z.ltb_spec hi 0) as [?|_]; [lia|].
  destruct (decide (Z.of_nat (length l) ≤ lo)) as [Hge|Hlt].
  - rewrite !drop_ge by lia. by rewrite !take_nil.
  - rewrite (Z.min_l lo) by lia.
    destruct (decide (hi ≤ Z.of_nat (length l))) as [Hhi|Hhi].
    + rewrite (Z.min_l hi) by lia. f_equal. lia.
    + rewrite (Z.min_r hi) by lia.
      rewrite !take_ge; [done| |]; rewrite length_drop; lia.
Qed.

Lemma clipped_slice_take_drop l (lo hi : nat) :
  clipped_slice l lo hi = take (hi - lo) (drop lo l).
Proof.
  unfold clipped_slice. generalize (hi - lo)%nat as n. intros n.
  revert lo. induction n as [|n IH]; intros lo; simpl.
  { by rewrite take_0. }
  rewrite IH. destruct (l !! lo) as [x|] eqn:Hlo.
  - by rewrite (drop_S _ _ _ Hlo).
  - apply lookup_ge_None in Hlo.
    rewrite !drop_ge by lia. by rewrite !take_nil.
Qed.

Lemma concat_chunks l (size n : nat) :
  concat ((λ i : nat, take size (drop (i * size) l)) <$> seq 0 n)
  = take (n * size) l.
Proof.
  induction n as [|n IH].
  { simpl. by rewrite take_0. }
  rewrite seq_S, fmap_app, concat_app, IH. simpl.
  rewrite app_nil_r, <- take_sum. f_equal. lia.
Qed.

End slices.

Lemma Math_ceil_div_bounds (a b : Z) :
  0 < b → 0 ≤ a →
  0 ≤ Math_ceil_div a b ∧ a ≤ Math_ceil_div a b * b
  ∧ (Math_ceil_div a b - 1) * b < a + (if a =? 0 then 1 else 0).
Proof.
  intros Hb Ha. unfold Math_ceil_div.
  pose proof (Z.mul_div_le (- a) b Hb).
  pose proof (Z.mul_succ_div_gt (- a) b Hb).
  destruct (Z.eqb_spec a 0); nia.
Qed.

(** C5.  With a positive page size and a current page among the pages that
    exist, the paginator shows exactly the elements at the positions from
    [(currentPage - 1) * pageSize] up to [currentPage * pageSize], those
    past the end left out; a page holds at most [pageSize] repositories;
    and the pages behind the page buttons, in order, put together give the
    whole repository list once. *)
Theorem currentRepos_is_page (s : ViewState) :
  0 < reposPerPage s →
  1 ≤ currentPage s ≤ page_count s →
  currentRepos s
  = clipped_slice (repos s)
      (Z.to_nat ((currentPage s - 1) * reposPerPage s))
      (Z.to_nat (currentPage s * reposPerPage s))
  ∧ Z.of_nat (length (currentRepos s)) ≤ reposPerPage s
  ∧ concat ((λ n, currentRepos (paginate n s)) <$> page_buttons s) = repos s.
Proof.
  intros Hsize Hpage.
  assert (currentRepos s
          = take (Z.to_nat (reposPerPage s))
              (drop (Z.to_nat ((currentPage s - 1) * reposPerPage s)) (repos s)))
    as Hslice.
  { unfold currentRepos, indexOfFirstRepo, indexOfLastRepo.
    rewrite Array_slice_take_drop by nia. f_equal; [nia|f_equal; nia]. }
  split_and!.
  - rewrite Hslice, clipped_slice_take_drop. f_equal. nia.
  - rewrite Hslice, length_take. lia.
  - unfold page_buttons. rewrite <- list_fmap_compose.
    pose proof (Math_ceil_div_bounds (Z.of_nat (length (repos s)))
                  (reposPerPage s) Hsize ltac:(lia)) as (Hn & Hcover & _).
    fold (page_count s) in Hn, Hcover.
    erewrite (list_fmap_ext _
               (λ i : nat, take (Z.to_nat (reposPerPage s))
                             (drop (i * Z.to_nat (reposPerPage s)) (repos s)))).
    + rewrite concat_chunks. apply take_ge. nia.
    + intros i index _. simpl.
      unfold currentRepos, indexOfFirstRepo, indexOfLastRepo, paginate. simpl.
      rewrite Array_slice_take_drop by nia. f_equal; [nia|f_equal; nia].
Qed.

(** ** Property keys *)

Section keys_facts.

Lemma own_set_keys (o : JSObject) (k : string) (v : value) :
  (own_set o k v).*1 = add_key o.*1 k.
Proof.
  unfold add_key. induction o as [|[k' v'] o IH].
  { rewrite decide_False by set_solver. done. }
  simpl own_set. rewrite !fmap_cons. case_bool_decide as Hk.
  - subst k'. rewrite decide_True by set_solver. done.
  - rewrite fmap_cons, IH. simpl fst.
    destruct (decide (k ∈ o.*1)) as [Hin|Hin].
    + rewrite decide_True by set_solver. done.
    + rewrite decide_False by set_solver. done.
Qed.

Lemma own_lookup_set (o : JSObject) (k k' : string) (v : value) :
  own_lookup (own_set o k v) k'
  = if decide (k = k') then Some v else own_lookup o k'.
Proof.
  induction o as [|[k0 v0] o IH]; simpl.
  { case_bool_decide; case_decide; done. }
  case_bool_decide as Hk0; simpl.
  - subst k0. case_bool_decide; case_decide; done.
  - rewrite IH. case_bool_decide; case_decide; congruence.
Qed.

Lemma own_lookup_key (o : JSObject) (k : string) :
  k ∈ o.*1 → is_Some (own_lookup o k).
Proof.
  induction o as [|[k' v'] o IH]; simpl; [set_solver|].
  intros Hk. case_bool_decide; [eauto|]. apply IH. set_solver.
Qed.

Lemma elem_of_first_occurrences (k : string) (ks : list string) :
  k ∈ first_occurrences ks ↔ k ∈ ks.
Proof.
  induction ks as [|x ks IH]; simpl; [done|].
  rewrite !elem_of_cons, list_elem_of_filter, IH.
  destruct (decide (k = x)); naive_solver.
Qed.

Lemma NoDup_first_occurrences (ks : list string) :
  NoDup (first_occurrences ks).
Proof.
  induction ks as [|x ks IH]; simpl; constructor.
  - rewrite list_elem_of_filter. naive_solver.
  - by apply NoDup_filter.
Qed.

(** Creating keys one after the other lists each new key once, where it
    first occurs. *)
Lemma foldl_add_key (ks l : list string) :
  foldl add_key ks l = ks ++ filter (λ k, k ∉ ks) (first_occurrences l).
Proof.
  revert ks. induction l as [|x l IH]; intros ks.
  { simpl. by rewrite app_nil_r. }
  change (foldl add_key ks (x :: l)) with (foldl add_key (add_key ks x) l).
  change (first_occurrences (x :: l))
    with (x :: filter (λ k', k' ≠ x) (first_occurrences l)).
  rewrite IH, filter_cons, list_filter_filter. unfold add_key.
  destruct (decide (x ∈ ks)) as [Hx|Hx].
  - destruct (decide (x ∉ ks)); [done|]. f_equal.
    apply list_filter_iff. intros k. naive_solver.
  - destruct (decide (x ∉ ks)); [|done]. rewrite <- app_assoc. simpl. do 2 f_equal.
    apply list_filter_iff. intros k. rewrite not_elem_of_app.
    set_solver.
Qed.

Lemma index_keys_cons (k : string) (ks : list string) :
  index_keys (k :: ks)
  = match array_index k with
    | Some n => (n, k) :: index_keys ks
    | None => index_keys ks
    end.
Proof. unfold index_keys. simpl. by destruct (array_index k). Qed.

Lemma index_keys_names (ks : list string) :
  (index_keys ks).*2 = filter (λ k, is_Some (array_index k)) ks.
Proof.
  induction ks as [|k ks IH]; [done|].
  rewrite index_keys_cons, filter_cons.
  destruct (array_index k) as [n|].
  - rewrite decide_True by eauto. by rewrite fmap_cons, IH.
  - rewrite decide_False by (by intros [??]). done.
Qed.

Lemma order_keys_perm (ks : list string) : order_keys ks ≡ₚ ks.
Proof.
  unfold order_keys.
  rewrite (sorted_elements_perm compare_index), index_keys_names.
  rewrite <- (filter_app_complement (λ k, is_Some (array_index k)) ks) at 3.
  f_equiv.
  assert (filter (λ k, array_index k = None) ks
          = filter (λ k, ¬ is_Some (array_index k)) ks) as ->; [|done].
  apply list_filter_iff. intros k. rewrite eq_None_not_Some. done.
Qed.

(** Without array indices among them, the keys stay in creation order. *)
Lemma order_keys_no_index (ks : list string) :
  Forall (λ k, array_index k = None) ks → order_keys ks = ks.
Proof.
  intros Hks. unfold order_keys.
  assert (index_keys ks = []) as ->.
  { induction Hks as [|k ks Hk _ IH]; [done|].
    by rewrite index_keys_cons, Hk. }
  simpl. induction Hks as [|k ks Hk _ IH]; [done|].
  rewrite filter_cons, decide_True by done. by rewrite IH.
Qed.

Lemma by_index_trans : Transitive (λ x y : N * string, (x.1 ≤ y.1)%N).
Proof. intros x y z. lia. Qed.

Lemma index_keys_sorted (ks : list string) :
  StronglySorted (λ x y : N * string, (x.1 ≤ y.1)%N)
    (sorted_elements compare_index (index_keys ks)).
Proof.
  induction (index_keys ks) as [|x l IH]; [constructor|].
  rewrite sorted_elements_cons.
  apply insert_sorted_strongly; [apply by_index_trans| | |done];
    intros y _; unfold SortCompare, compare_index; simpl; lia.
Qed.

End keys_facts.

(** ** The language tally *)

Section aggregator_facts.
Context `{Host}.

Lemma languages_of_cons (r : RepoData) (repos : list RepoData) :
  languages_of (r :: repos) = languages_of [r] ++ languages_of repos.
Proof.
  unfold languages_of. simpl.
  destruct (language r) as [k|]; [|done]. by case_bool_decide.
Qed.

Lemma elem_of_languages_of (k : string) (repos : list RepoData) :
  k ∈ languages_of repos ↔ k ≠ "" ∧ ∃ r, r ∈ repos ∧ language r = Some k.
Proof.
  unfold languages_of. rewrite list_elem_of_omap. split.
  - intros (r & Hr & Hk). destruct (language r) as [k'|] eqn:Hlang; [|done].
    case_bool_decide; simplify_eq. eauto.
  - intros (Hk & r & Hr & Hlang). exists r. split; [done|].
    rewrite Hlang. by rewrite bool_decide_false.
Qed.

Lemma tally_step_keys (acc : JSObject) (r : RepoData) :
  (tally_step acc r).*1
  = foldl add_key acc.*1 (filter (λ k, k ≠ "__proto__") (languages_of [r])).
Proof.
  unfold tally_step, languages_of. simpl omap.
  destruct (language r) as [lang|]; [|done].
  unfold truthy. case_bool_decide as Hempty; [done|]. simpl negb. cbv iota.
  rewrite filter_cons, filter_nil. unfold Set_.
  case_bool_decide as Hproto.
  - rewrite decide_False by (by intros ?). done.
  - rewrite decide_True by done. apply own_set_keys.
Qed.

Lemma foldl_tally_step_keys (acc : JSObject) (repos : list RepoData) :
  (foldl tally_step acc repos).*1
  = foldl add_key acc.*1 (filter (λ k, k ≠ "__proto__") (languages_of repos)).
Proof.
  revert acc. induction repos as [|r repos IH]; intros acc; [done|].
  rewrite languages_of_cons, filter_app, foldl_app, <- tally_step_keys.
  apply IH.
Qed.

(** The keys of [languageUsage], in creation order: the languages in use,
    each where it first occurs. *)
Lemma languageUsage_keys (repos : list RepoData) :
  (languageUsage repos).*1
  = first_occurrences (filter (λ k, k ≠ "__proto__") (languages_of repos)).
Proof.
  unfold languageUsage. rewrite foldl_tally_step_keys, foldl_add_key. simpl.
  induction (first_occurrences _) as [|k ks IH]; [done|].
  rewrite filter_cons, decide_True by set_solver. by rewrite IH.
Qed.

Lemma no_proto_languages (repos : list RepoData) :
  Forall (λ r, language r ≠ Some "__proto__") repos →
  filter (λ k, k ≠ "__proto__") (languages_of repos) = languages_of repos.
Proof.
  induction 1 as [|r repos Hr _ IH]; [done|].
  rewrite languages_of_cons, filter_app, IH. f_equal.
  unfold languages_of. simpl omap.
  destruct (language r) as [k|]; [|done].
  case_bool_decide; [done|].
  rewrite filter_cons, decide_True; [done|congruence].
Qed.

Lemma donutChartData_languages (repos : list RepoData) :
  tally_language <$> donutChartData repos = Object_keys (languageUsage repos).
Proof.
  unfold donutChartData. rewrite fmap_imap.
  transitivity (imap (const (λ k : string, k))
                  (Object_keys (languageUsage repos))); [reflexivity|].
  by rewrite imap_const, list_fmap_id.
Qed.

(** With languages that name no member of [Object.prototype], every
    property stays a number: the number of repositories counted. *)
Lemma tally_step_plain (acc : JSObject) (r : RepoData) :
  numeric acc → plain_language r →
  numeric (tally_step acc r)
  ∧ ∀ k, tally_value (tally_step acc r) k
         = tally_value acc k
           + (if decide (uses_language k r ∧ k ≠ "") then 1 else 0).
Proof.
  intros Hnum Hplain. unfold tally_step.
  destruct (language r) as [lang|] eqn:Hlang.
  2:{ split; [done|]. intros k.
      rewrite decide_False by (unfold uses_language; naive_solver). lia. }
  unfold truthy. case_bool_decide as Hempty; simpl negb; cbv iota.
  { split; [done|]. intros k.
    rewrite decide_False by (unfold uses_language; naive_solver). lia. }
  specialize (Hplain lang Hlang).
  assert (add (or_else (Get acc lang) (VNum 0)) (VNum 1)
          = VNum (tally_value acc lang + 1)) as ->.
  { unfold Get, tally_value. destruct (own_lookup acc lang) as [v|] eqn:Hv.
    - destruct (Hnum _ _ Hv) as [n ->]. unfold or_else. simpl.
      destruct (Z.eqb_spec n 0) as [->|]; done.
    - rewrite bool_decide_false by done. done. }
  unfold Set_. rewrite bool_decide_false by set_solver. split.
  - intros k v. rewrite own_lookup_set. case_decide; [|by eauto].
    intros [= <-]. eauto.
  - intros k. unfold tally_value at 1. rewrite own_lookup_set.
    destruct (decide (lang = k)) as [->|Hne].
    + rewrite decide_True by done. done.
    + rewrite decide_False by (unfold uses_language; naive_solver).
      fold (tally_value acc k). lia.
Qed.

Lemma foldl_tally_step_plain (acc : JSObject) (repos : list RepoData) :
  numeric acc → Forall plain_language repos →
  numeric (foldl tally_step acc repos)
  ∧ ∀ k, k ≠ "" →
         tally_value (foldl tally_step acc repos) k
         = tally_value acc k + repos_using k repos.
Proof.
  intros Hnum Hplain. revert acc Hnum.
  induction Hplain as [|r repos Hr _ IH]; intros acc Hnum.
  { split; [done|]. intros k _. unfold repos_using. simpl. lia. }
  destruct (tally_step_plain acc r Hnum Hr) as [Hnum' Hstep].
  destruct (IH _ Hnum') as [Hnum'' Hrest]. split; [done|].
  intros k Hk. simpl foldl. rewrite Hrest, Hstep by done.
  unfold repos_using. rewrite filter_cons.
  destruct (decide (uses_language k r)) as [Hu|Hu].
  - rewrite decide_True by done. simpl length. lia.
  - rewrite decide_False by naive_solver. lia.
Qed.

Lemma languageUsage_plain (repos : list RepoData) (k : string) :
  Forall plain_language repos →
  k ∈ languages_of repos →
  Get (languageUsage repos) k = VNum (repos_using k repos)
  ∧ 1 ≤ repos_using k repos.
Proof.
  intros Hplain Hk.
  assert (Forall (λ r, language r ≠ Some "__proto__") repos) as Hproto.
  { eapply Forall_impl; [exact Hplain|]. intros r Hr Hlang.
    apply (Hr _ Hlang). set_solver. }
  destruct (foldl_tally_step_plain [] repos) as [Hnum Hval]; [done..|].
  fold (languageUsage repos) in Hnum, Hval.
  apply elem_of_languages_of in Hk as Hk'. destruct Hk' as (Hne & r & Hr & Hlang).
  split.
  - destruct (own_lookup_key (languageUsage repos) k) as [v Hv].
    { rewrite languageUsage_keys, no_proto_languages by done.
      by apply elem_of_first_occurrences. }
    specialize (Hval k Hne). unfold tally_value in Hval. unfold Get.
    rewrite Hv in *. destruct (Hnum _ _ Hv) as [n ->]. simpl in Hval.
    f_equal. lia.
  - unfold repos_using.
    assert (r ∈ filter (uses_language k) repos) as Hin
      by (by apply list_elem_of_filter).
    destruct (filter (uses_language k) repos); [set_solver|]. simpl. lia.
Qed.

End aggregator_facts.

(** ** Sums of tallies *)

Section sums.
Context {K : Type} `{!EqDecision K}.

Lemma sum_list_with_zero (ks : list K) : sum_list_with (λ _, 0%nat) ks = 0%nat.
Proof. induction ks as [|k ks IH]; simpl; [done|]. by rewrite IH. Qed.

Lemma sum_list_with_ext (f g : K → nat) (ks : list K) :
  (∀ k, k ∈ ks → f k = g k) → sum_list_with f ks = sum_list_with g ks.
Proof.
  induction ks as [|k ks IH]; intros Hfg; simpl; [done|].
  rewrite IH, (Hfg k); [done|left|]. intros k' Hk'. apply Hfg. by right.
Qed.

Lemma sum_list_with_split (f g h : K → nat) (ks : list K) :
  (∀ k, f k = (g k + h k)%nat) →
  sum_list_with f ks = (sum_list_with g ks + sum_list_with h ks)%nat.
Proof.
  intros Hf. induction ks as [|k ks IH]; simpl; [done|].
  rewrite IH, Hf. lia.
Qed.

Lemma sum_list_with_indicator (k0 : K) (ks : list K) :
  NoDup ks →
  sum_list_with (λ k, if decide (k0 = k) then 1%nat else 0%nat) ks
  = if decide (k0 ∈ ks) then 1%nat else 0%nat.
Proof.
  induction 1 as [|k ks Hk _ IH].
  { by rewrite decide_False by set_solver. }
  cbn [sum_list_with]. rewrite IH. destruct (decide (k0 = k)) as [->|Hne].
  - rewrite decide_False by done. rewrite decide_True by set_solver. done.
  - destruct (decide (k0 ∈ ks)) as [Hin|Hin].
    + rewrite decide_True by set_solver. done.
    + rewrite decide_False by set_solver. done.
Qed.

End sums.

Section totals.
Context `{Host}.

(** Over any duplicate-free list of keys that covers the languages in
    use, the tallies add up to the number of repositories that have a
    language. *)
Lemma sum_repos_using (ks : list string) (repos : list RepoData) :
  NoDup ks → "" ∉ ks →
  (∀ k, k ∈ languages_of repos → k ∈ ks) →
  sum_list_with (λ k, length (filter (uses_language k) repos)) ks
  = length (filter has_language repos).
Proof.
  intros Hnodup Hempty. induction repos as [|r repos IH]; intros Hcover.
  { apply sum_list_with_zero. }
  rewrite (sum_list_with_split _
             (λ k, if decide (uses_language k r) then 1%nat else 0%nat)
             (λ k, length (filter (uses_language k) repos))).
  2:{ intros k. rewrite filter_cons.
      destruct (decide (uses_language k r)); done. }
  rewrite IH.
  2:{ intros k Hk. apply Hcover. rewrite languages_of_cons. set_solver. }
  rewrite filter_cons.
  destruct (decide (has_language r)) as [(k0 & Hk0 & Hne)|Hno].
  - rewrite (sum_list_with_ext _
               (λ k, if decide (k0 = k) then 1%nat else 0%nat)).
    2:{ intros k _. unfold uses_language.
        destruct (decide (language r = Some k)), (decide (k0 = k));
          congruence. }
    rewrite sum_list_with_indicator by done.
    rewrite decide_True; [simpl; lia|].
    apply Hcover, elem_of_languages_of. split; [done|].
    exists r. split; [left|done].
  - rewrite (sum_list_with_ext _ (λ _, 0%nat)), sum_list_with_zero; [done|].
    intros k Hk. rewrite decide_False; [done|]. intros Hu. apply Hno.
    exists k. split; [done|]. intros ->. done.
Qed.

Lemma foldl_add_counts (c : string → nat) (ts : list LanguageTally) (a : Z) :
  (∀ t, t ∈ ts → count t = VNum (Z.of_nat (c (tally_language t)))) →
  foldl (λ acc curr, add acc (count curr)) (VNum a) ts
  = VNum (a + Z.of_nat (sum_list_with c (tally_language <$> ts))).
Proof.
  revert a. induction ts as [|t ts IH]; intros a Hts.
  { simpl. f_equal. lia. }
  rewrite fmap_cons. cbn [foldl sum_list_with].
  rewrite (Hts t) by left. simpl add. rewrite IH.
  - f_equal. lia.
  - intros t' Ht'. apply Hts. by right.
Qed.

End totals.

Section aggregator_claims.
Context `{Host}.

Lemma donutChartData_names (repos : list RepoData) :
  Forall (λ r, language r ≠ Some "__proto__") repos →
  tally_language <$> donutChartData repos
  = order_keys (first_occurrences (languages_of repos)).
Proof.
  intros Hproto. rewrite donutChartData_languages. unfold Object_keys.
  by rewrite languageUsage_keys, no_proto_languages.
Qed.

Lemma plain_language_no_proto (repos : list RepoData) :
  Forall plain_language repos →
  Forall (λ r, language r ≠ Some "__proto__") repos.
Proof.
  intros Hplain. eapply Forall_impl; [exact Hplain|].
  intros r Hr Hlang. apply (Hr _ Hlang). set_solver.
Qed.

Lemma donutChartData_entry (repos : list RepoData) (t : LanguageTally) :
  Forall (λ r, language r ≠ Some "__proto__") repos →
  t ∈ donutChartData repos →
  tally_language t ∈ languages_of repos
  ∧ count t = Get (languageUsage repos) (tally_language t).
Proof.
  intros Hproto Ht. unfold donutChartData in Ht.
  apply elem_of_lookup_imap in Ht as (i & k & -> & Hik). simpl.
  split; [|done]. apply list_elem_of_lookup_2 in Hik.
  unfold Object_keys in Hik.
  rewrite languageUsage_keys, no_proto_languages, order_keys_perm in Hik
    by done.
  by apply elem_of_first_occurrences.
Qed.

(** C4 (as amended).  For every sequence of repositories whose languages
    name no member of [Object.prototype]: a tally exists only for a
    language that some repository has and that is not the empty string;
    its count is the number of repositories with exactly that language,
    at least 1; each such language has exactly one tally; and the counts
    add up to the number of repositories whose language is neither null
    nor the empty string. *)
Theorem languageUsage_counts (repos : list RepoData) :
  Forall plain_language repos →
  (∀ t, t ∈ donutChartData repos →
     tally_language t ≠ ""
     ∧ (∃ r, r ∈ repos ∧ language r = Some (tally_language t))
     ∧ count t = VNum (repos_using (tally_language t) repos)
     ∧ 1 ≤ repos_using (tally_language t) repos)
  ∧ tally_language <$> donutChartData repos
    ≡ₚ first_occurrences (languages_of repos)
  ∧ totalLanguages repos = VNum (Z.of_nat (length (filter has_language repos))).
Proof.
  intros Hplain. pose proof (plain_language_no_proto _ Hplain) as Hproto.
  pose proof (donutChartData_names _ Hproto) as Hnames.
  split_and!.
  - intros t Ht. destruct (donutChartData_entry _ _ Hproto Ht) as [HL Hc].
    destruct (languageUsage_plain repos _ Hplain HL) as [Hget Hone].
    apply elem_of_languages_of in HL as (Hne & r & Hr & Hlang).
    rewrite Hc. eauto 10.
  - rewrite Hnames. apply order_keys_perm.
  - unfold totalLanguages.
    rewrite (foldl_add_counts (λ k, length (filter (uses_language k) repos))).
    + rewrite Hnames, sum_repos_using; [f_equal; lia| | |].
      * rewrite order_keys_perm. apply NoDup_first_occurrences.
      * rewrite order_keys_perm, elem_of_first_occurrences,
          elem_of_languages_of. naive_solver.
      * intros k Hk. by rewrite order_keys_perm, elem_of_first_occurrences.
    + intros t Ht. destruct (donutChartData_entry _ _ Hproto Ht) as [HL Hc].
      destruct (languageUsage_plain repos _ Hplain HL) as [Hget _].
      by rewrite Hc, Hget.
Qed.

(** C6 (as amended).  For every sequence of repositories none of whose
    languages is [__proto__], the tallies come in the order JavaScript
    lists own property keys: first the languages whose names are array
    indices (the decimal text of an integer from 0 to 2^32 - 2), in
    ascending numeric order, then the other languages in the order of
    their first occurrence in the input; with no array index among the
    languages, the order is that of first occurrence. *)
Theorem donutChartData_key_order (repos : list RepoData) :
  Forall (λ r, language r ≠ Some "__proto__") repos →
  (∃ idx : list (N * string),
     tally_language <$> donutChartData repos
     = idx.*2 ++ filter (λ k, array_index k = None)
                   (first_occurrences (languages_of repos))
     ∧ idx ≡ₚ index_keys (first_occurrences (languages_of repos))
     ∧ StronglySorted (λ x y : N * string, (x.1 ≤ y.1)%N) idx)
  ∧ (Forall (λ k, array_index k = None) (languages_of repos) →
     tally_language <$> donutChartData repos
     = first_occurrences (languages_of repos)).
Proof.
  intros Hproto. rewrite (donutChartData_names _ Hproto). split.
  - eexists. split; [reflexivity|]. split.
    + apply sorted_elements_perm.
    + apply index_keys_sorted.
  - intros Hnone. apply order_keys_no_index.
    rewrite Forall_forall in Hnone. apply Forall_forall.
    intros k Hk. rewrite elem_of_first_occurrences in Hk. by apply Hnone.
Qed.

End aggregator_claims.

Lemma languageUsage_counts_witness :
  totalLanguages [Examples.repoA; Examples.repoB; Examples.repoA] = VNum 3.
Proof.
  refine (proj2 (proj2 (languageUsage_counts
            [Examples.repoA; Examples.repoB; Examples.repoA] _))).
  repeat constructor; intros k [= <-];
    apply (bool_decide_unpack _); vm_compute; exact I.
Defined.

(** C4 as stated fails: a repository whose language is the empty string
    has a non-null language and is counted in no tally. *)
Lemma empty_language_not_counted :
  totalLanguages [Examples.repoE] = VNum 0
  ∧ donutChartData [Examples.repoE] = []
  ∧ length (filter (λ r, language r ≠ None) [Examples.repoE]) = 1%nat.
Proof. by vm_compute. Qed.

Lemma donutChartData_key_order_witness :
  tally_language <$> donutChartData [Examples.repoA; Examples.repoC; Examples.repoA]
  = first_occurrences (languages_of [Examples.repoA; Examples.repoC; Examples.repoA]).
Proof.
  refine (proj2 (donutChartData_key_order
            [Examples.repoA; Examples.repoC; Examples.repoA] _) _).
  - repeat constructor; discriminate.
  - repeat constructor.
Defined.

(** C6 as stated fails: a language named ["1"] is listed before a language
    that occurs earlier in the input. *)
Lemma numeric_language_listed_first :
  tally_language <$> donutChartData [Examples.repoA; Examples.repoB]
  = ["1"; "TypeScript"]
  ∧ first_occurrences (languages_of [Examples.repoA; Examples.repoB])
    = ["TypeScript"; "1"].
Proof. by vm_compute. Qed.

(** ** The summary sentence *)

Lemma append_assoc (a b c : string) : (a +:+ b) +:+ c = a +:+ (b +:+ c).
Proof.
  induction a as [|x a IH]; [done|].
  change (String x ((a +:+ b) +:+ c) = String x (a +:+ (b +:+ c))).
  by rewrite IH.
Qed.

(** C1 (the code as it is).  On an empty repository list the generator
    does not fail, and the sentence keeps the clause on the highlighted
    repository, with the text [undefined] in place of the name and of the
    star count; a search for a user without repositories shows that
    sentence. *)
Theorem generateAiSummary_empty_list :
  (∀ (H : Host) (userData : GitHubData) (s : ViewState),
     aiSummary (generateAiSummary userData [] s)
     = summary_profile_part userData
       +:+ " Their most popular repository is " +:+ dquote +:+ "undefined"
       +:+ dquote +:+ " with undefined stars.")
  ∧ aiSummary (run initialState
                 [TypeUsername "ada";
                  ClickSearch (Examples.serving Examples.ada [])])
    = "This GitHub profile belongs to ada, who joined GitHub in 2015. "
      +:+ "They have 2 public repositories, 10 followers, and are "
      +:+ "following 1 users. Their most popular repository is "
      +:+ dquote +:+ "undefined" +:+ dquote +:+ " with undefined stars.".
Proof. split; [reflexivity|by vm_compute]. Qed.




(** ** The fetch orchestrator *)

Ltac run_proc :=
  unfold fetchGitHubData, try_catch_finally, fetch, await, update, throw,
    get_view, mbind, mret, Proc_bind, Proc_ret; simpl.

Section orchestrator_facts.
Context `{Host}.

(** Whatever the network does, a search leaves the user name, the page
    number and the page size alone, and the loading flag is either
    untouched (the search is still waiting) or false. *)
Lemma fetchGitHubData_frame (net : Network) (σ : Sys) :
  let '(r, σ') := fetchGitHubData net σ in
  username (view σ') = username (view σ)
  ∧ currentPage (view σ') = currentPage (view σ)
  ∧ reposPerPage (view σ') = reposPerPage (view σ)
  ∧ ((r = Suspended ∧ loading (view σ') = loading (view σ)
      ∧ username (view σ) ≠ "")
     ∨ (r = Returned () ∧ loading (view σ') = false ∧ username (view σ) ≠ "")
     ∨ (r = Returned () ∧ σ' = σ ∧ username (view σ) = "")).
Proof.
  run_proc. case_bool_decide as Hname; [by eauto 10|].
  destruct (user_endpoint net _) as [res| |]; simpl; [|by eauto 10..].
  destruct (ok res); simpl; [|by eauto 10].
  destruct (json res) as [userData| |]; simpl; [|by eauto 10..].
  destruct (repos_endpoint net _) as [reposRes| |]; simpl; [|by eauto 10..].
  destruct (ok reposRes); simpl; [|by eauto 10].
  destruct (json reposRes) as [reposData| |]; simpl; by eauto 10.
Qed.

(** X1.  A search whose two requests both succeed, with repositories
    whose [updated_at] are dates: the profile, the sorted repositories and
    the summary are stored, the error stays empty, and the two URLs were
    requested in order. *)
Lemma fetchGitHubData_success (net : Network) (s : ViewState)
    (res : Response GitHubData) (userData : GitHubData)
    (reposRes : Response (list RepoData)) (reposData : list RepoData) :
  username s ≠ "" →
  user_endpoint net (profile_url (username s)) = Fulfilled res →
  ok res = true → json res = Fulfilled userData →
  repos_endpoint net (repos_url userData) = Fulfilled reposRes →
  ok reposRes = true → json reposRes = Fulfilled reposData →
  Forall valid_date reposData →
  search net s
  = {| view := {| username := username s;
                  data := Some userData;
                  repos := sortedRepos reposData;
                  error := "";
                  loading := false;
                  currentPage := currentPage s;
                  reposPerPage := reposPerPage s;
                  aiSummary := summary_text userData (sortedRepos reposData) |};
       requests := [profile_url (username s); repos_url userData] |}.
Proof.
  intros Hname Hres Hok Hjson Hrepos Hok' Hjson' _. unfold search. run_proc.
  rewrite bool_decide_false by done. rewrite Hres. simpl.
  rewrite Hok, Hjson. simpl. rewrite Hrepos. simpl. rewrite Hok', Hjson'.
  done.
Qed.

(** X22.  No partial success: whenever a search leaves an error message, it
    leaves no profile, no repositories and no summary. *)
Lemma fetchGitHubData_error_clears (net : Network) (s : ViewState) :
  username s ≠ "" →
  error (view (search net s)) ≠ "" →
  data (view (search net s)) = None
  ∧ repos (view (search net s)) = []
  ∧ aiSummary (view (search net s)) = "".
Proof.
  intros Hname. unfold search. run_proc. rewrite bool_decide_false by done.
  destruct (user_endpoint net _) as [res| |]; simpl; [|done..].
  destruct (ok res); simpl; [|done].
  destruct (json res) as [userData| |]; simpl; [|done..].
  destruct (repos_endpoint net _) as [reposRes| |]; simpl; [|done..].
  destruct (ok reposRes); simpl; [|done].
  destruct (json reposRes) as [reposData| |]; simpl; done.
Qed.

(** C8.  With an empty identifier the orchestrator returns at once: the
    list of requests and every field of the view are what they were. *)
Theorem fetchGitHubData_empty_identifier (net : Network) (σ : Sys) :
  username (view σ) = "" →
  fetchGitHubData net σ = (Returned (), σ).
Proof. intros Hname. run_proc. by rewrite bool_decide_true. Qed.

(** C7.  For a non-empty identifier: when the profile request is answered
    with a status that is not 2xx, the error is "User not found"; when the
    profile arrives and the repository request is answered with a status
    that is not 2xx, the error is "Repositories not found"; in both cases
    profile, repositories and summary are empty, so the profile that had
    arrived is not shown. *)
Theorem fetchGitHubData_failure (net : Network) (s : ViewState) :
  username s ≠ "" →
  (∀ res,
     user_endpoint net (profile_url (username s)) = Fulfilled res →
     ok res = false →
     error (view (search net s)) = "User not found"
     ∧ data (view (search net s)) = None
     ∧ repos (view (search net s)) = []
     ∧ aiSummary (view (search net s)) = "")
  ∧ (∀ res userData reposRes,
       user_endpoint net (profile_url (username s)) = Fulfilled res →
       ok res = true →
       json res = Fulfilled userData →
       repos_endpoint net (repos_url userData) = Fulfilled reposRes →
       ok reposRes = false →
       error (view (search net s)) = "Repositories not found"
       ∧ data (view (search net s)) = None
       ∧ repos (view (search net s)) = []
       ∧ aiSummary (view (search net s)) = "").
Proof.
  intros Hname. split.
  - intros res Hres Hok. unfold search. run_proc.
    rewrite bool_decide_false by done. rewrite Hres. simpl.
    rewrite Hok. done.
  - intros res userData reposRes Hres Hok Hjson Hrepos Hok'.
    unfold search. run_proc.
    rewrite bool_decide_false by done. rewrite Hres. simpl.
    rewrite Hok, Hjson. simpl. rewrite Hrepos. simpl. rewrite Hok'. done.
Qed.



(** C2 (as amended).  The current page is 1 at the start; a search, whatever
    its identifier and its outcome, leaves the current page where it was
    (it is not reset); typing leaves it too; pressing a page button that is
    shown sets it to that button's number, which lies between 1 and the
    number of pages of the repositories then loaded. *)
Theorem currentPage_set_by_paginate_only :
  currentPage initialState = 1
  ∧ (∀ net s, currentPage (step s (ClickSearch net)) = currentPage s)
  ∧ (∀ u s, currentPage (step s (TypeUsername u)) = currentPage s)
  ∧ (∀ n s, page_button_shown n s = true →
       currentPage (step s (ClickPage n)) = n
       ∧ page_in_range (step s (ClickPage n))).
Proof.
  split_and!; [done| |done|].
  - intros net s. simpl. unfold search.
    pose proof (fetchGitHubData_frame net {| view := s; requests := [] |}) as Hf.
    destruct (fetchGitHubData net _) as [r σ']. simpl in *. tauto.
  - intros n s Hshown. simpl. rewrite Hshown. split; [done|].
    unfold page_button_shown in Hshown.
    apply andb_prop in Hshown as [_ Hn%bool_decide_eq_true].
    unfold page_buttons in Hn. apply list_elem_of_fmap in Hn as (i & -> & Hi).
    apply elem_of_seq in Hi. unfold page_in_range, paginate, page_count in *.
    simpl. lia.
Qed.

End orchestrator_facts.

Lemma currentRepos_is_page_witness :
  currentRepos (paginate 2 Examples.loaded)
  = clipped_slice (repos (paginate 2 Examples.loaded)) 10 20
  ∧ Z.of_nat (length (currentRepos (paginate 2 Examples.loaded))) ≤ 10
  ∧ concat ((λ n, currentRepos (paginate n (paginate 2 Examples.loaded)))
              <$> page_buttons (paginate 2 Examples.loaded))
    = repos (paginate 2 Examples.loaded).
Proof.
  apply (currentRepos_is_page (paginate 2 Examples.loaded)).
  - reflexivity.
  - split; by vm_compute.
Defined.

Lemma fetchGitHubData_empty_identifier_witness :
  fetchGitHubData Examples.no_user {| view := initialState; requests := [] |}
  = (Returned (), {| view := initialState; requests := [] |}).
Proof. apply fetchGitHubData_empty_identifier. reflexivity. Defined.

Lemma fetchGitHubData_failure_witness :
  (error (view (search Examples.no_user (Examples.typed "ada")))
   = "User not found"
   ∧ data (view (search Examples.no_user (Examples.typed "ada"))) = None
   ∧ repos (view (search Examples.no_user (Examples.typed "ada"))) = []
   ∧ aiSummary (view (search Examples.no_user (Examples.typed "ada"))) = "")
  ∧ (error (view (search (Examples.no_repos Examples.ada) (Examples.typed "ada")))
     = "Repositories not found"
     ∧ data (view (search (Examples.no_repos Examples.ada) (Examples.typed "ada")))
       = None
     ∧ repos (view (search (Examples.no_repos Examples.ada) (Examples.typed "ada")))
       = []
     ∧ aiSummary (view (search (Examples.no_repos Examples.ada)
                          (Examples.typed "ada"))) = "").
Proof.
  split.
  - refine (proj1 (fetchGitHubData_failure Examples.no_user
                     (Examples.typed "ada") _) _ eq_refl eq_refl).
    discriminate.
  - refine (proj2 (fetchGitHubData_failure (Examples.no_repos Examples.ada)
                     (Examples.typed "ada") _)
              _ _ _ eq_refl eq_refl eq_refl eq_refl eq_refl).
    discriminate.
Defined.


Lemma currentPage_set_by_paginate_only_witness :
  currentPage (step Examples.loaded (ClickPage 2)) = 2
  ∧ page_in_range (step Examples.loaded (ClickPage 2)).
Proof.
  destruct (currentPage_set_by_paginate_only (H := UTC.host))
    as (_ & _ & _ & Hpage).
  apply (Hpage 2 Examples.loaded). reflexivity.
Defined.

(** C2 as stated fails: after a search that loaded two pages and a press
    on page 2, a new search that loads one repository leaves the current
    page at 2, past the only page. *)
Lemma stale_page_after_new_search :
  let s := run Examples.loaded
             [ClickPage 2; TypeUsername "bob";
              ClickSearch (Examples.serving Examples.ada [Examples.repoA])] in
  repos s = [Examples.repoA]
  ∧ currentPage s = 2
  ∧ page_count s = 1
  ∧ ¬ page_in_range s.
Proof.
  split_and!; [by vm_compute..|].
  unfold page_in_range. vm_compute. intros [_ Hle]. by apply Hle.
Qed.

(** * Further properties of the component *)

(** ** Searches *)

Ltac destruct_network net :=
  destruct (user_endpoint net _) as [res| |] eqn:Huser; simpl;
  [destruct (ok res) eqn:Hok; simpl;
   [destruct (json res) as [userData| |] eqn:Hjson; simpl;
    [destruct (repos_endpoint net _) as [reposRes| |] eqn:Hrepos; simpl;
     [destruct (ok reposRes) eqn:Hok'; simpl;
      [destruct (json reposRes) as [reposData| |] eqn:Hjson'; simpl| ]
     | | ]
    | | ]
   | ]
  | | ].

Section search_facts.
Context `{Host}.

(** X2.  When a request or the reading of a response body is rejected,
    the message of that rejection is the error shown; profile,
    repositories and summary are empty and loading is over. *)
Theorem fetchGitHubData_rejection (net : Network) (s : ViewState) (e : string) :
  username s ≠ "" →
  user_endpoint net (profile_url (username s)) = Rejected e
  ∨ (∃ res, user_endpoint net (profile_url (username s)) = Fulfilled res
            ∧ ok res = true
            ∧ (json res = Rejected e
               ∨ ∃ userData, json res = Fulfilled userData
                   ∧ (repos_endpoint net (repos_url userData) = Rejected e
                      ∨ ∃ reposRes,
                          repos_endpoint net (repos_url userData)
                          = Fulfilled reposRes
                          ∧ ok reposRes = true
                          ∧ json reposRes = Rejected e))) →
  view (search net s) = setLoading false (setError e (cleared s)).
Proof.
  intros Hname Hrej. unfold search. run_proc.
  rewrite bool_decide_false by done.
  destruct Hrej as [Hu|(res & Hu & Hok & Hrest)]; rewrite Hu; simpl; [done|].
  rewrite Hok. simpl.
  destruct Hrest as [Hj|(userData & Hj & Hrest)]; rewrite Hj; simpl; [done|].
  destruct Hrest as [Hr|(reposRes & Hr & Hok' & Hj')]; rewrite Hr; simpl;
    [done|].
  rewrite Hok', Hj'. done.
Qed.

(** X3.  While a request or the reading of a response body has not
    settled, the view is the cleared one: no error, no profile, no
    repositories, no summary, and the loading flag as it was; the search
    has not run to its end. *)
Theorem fetchGitHubData_waiting (net : Network) (s : ViewState) :
  username s ≠ "" →
  user_endpoint net (profile_url (username s)) = Pending
  ∨ (∃ res, user_endpoint net (profile_url (username s)) = Fulfilled res
            ∧ ok res = true
            ∧ (json res = Pending
               ∨ ∃ userData, json res = Fulfilled userData
                   ∧ (repos_endpoint net (repos_url userData) = Pending
                      ∨ ∃ reposRes,
                          repos_endpoint net (repos_url userData)
                          = Fulfilled reposRes
                          ∧ ok reposRes = true
                          ∧ json reposRes = Pending))) →
  view (search net s) = cleared s ∧ ¬ completes net s.
Proof.
  intros Hname Hwait.
  assert (∃ σ, fetchGitHubData net {| view := s; requests := [] |}
               = (Suspended, σ) ∧ view σ = cleared s) as (σ & Hrun & Hview).
  { run_proc. rewrite bool_decide_false by done.
    destruct Hwait as [Hu|(res & Hu & Hok & Hrest)]; rewrite Hu; simpl;
      [by eauto|].
    rewrite Hok. simpl.
    destruct Hrest as [Hj|(userData & Hj & Hrest)]; rewrite Hj; simpl;
      [by eauto|].
    destruct Hrest as [Hr|(reposRes & Hr & Hok' & Hj')]; rewrite Hr; simpl;
      [by eauto|].
    rewrite Hok', Hj'. by eauto. }
  split.
  - unfold search. by rewrite Hrun.
  - intros (r & σ' & Hrun' & Hr). rewrite Hrun in Hrun'. by simplify_eq.
Qed.

(** X4.  A search with a non-empty identifier requests the profile URL of
    that identifier first; it requests nothing else unless the profile
    arrived with a 2xx status and a readable body, and then only the
    [repos_url] of that profile. *)
Theorem fetchGitHubData_requests (net : Network) (s : ViewState) :
  username s ≠ "" →
  requests (search net s) = [profile_url (username s)]
  ∨ ∃ res userData,
      user_endpoint net (profile_url (username s)) = Fulfilled res
      ∧ ok res = true
      ∧ json res = Fulfilled userData
      ∧ requests (search net s)
        = [profile_url (username s); repos_url userData].
Proof.
  intros Hname. unfold search. run_proc. rewrite bool_decide_false by done.
  destruct_network net; try (by left); right; by eauto 10.
Qed.

(** X5.  What a search shows depends on the identifier and the network
    only: profile, repositories, error and summary of the view it was
    started from are discarded. *)
Theorem search_discards_previous (net : Network) (s s' : ViewState) :
  username s ≠ "" →
  username s' = username s →
  data (view (search net s')) = data (view (search net s))
  ∧ repos (view (search net s')) = repos (view (search net s))
  ∧ error (view (search net s')) = error (view (search net s))
  ∧ aiSummary (view (search net s')) = aiSummary (view (search net s))
  ∧ requests (search net s') = requests (search net s).
Proof.
  intros Hname Heq. unfold search. run_proc. rewrite Heq.
  rewrite !bool_decide_false by done.
  destruct_network net; done.
Qed.

(** X6.  Pressing search again, with the network answering as before,
    changes nothing. *)
Theorem search_twice (net : Network) (s : ViewState) :
  view (search net (view (search net s))) = view (search net s).
Proof.
  destruct (decide (username s = "")) as [Hname|Hname].
  { assert (search net s = {| view := s; requests := [] |}) as Hs.
    { unfold search. run_proc. by rewrite bool_decide_true. }
    rewrite Hs. simpl. by rewrite Hs. }
  unfold search. run_proc.
  rewrite (bool_decide_false (username s = "")) by done.
  destruct_network net;
    rewrite ?bool_decide_false by done; rewrite ?Huser; simpl;
    rewrite ?Hok; simpl; rewrite ?Hjson; simpl; rewrite ?Hrepos; simpl;
    rewrite ?Hok'; simpl; rewrite ?Hjson'; simpl; done.
Qed.

End search_facts.

(** ** What stays true whatever the user does *)

Section reachable.
Context `{Host}.

Lemma summary_text_first (d : GitHubData) (l : list RepoData) :
  String.get 0 (summary_text d l) = String.get 0 "T".
Proof. reflexivity. Qed.

Lemma summary_text_not_empty (d : GitHubData) (l : list RepoData) :
  summary_text d l ≠ "".
Proof.
  intros Heq. pose proof (summary_text_first d l) as Hfirst.
  rewrite Heq in Hfirst. discriminate.
Qed.






End reachable.

(** ** Pages *)

(** X12.  A current page past the last page shows no repositories: the
    slice is empty, it does not fail and it does not wrap around. *)
Theorem currentRepos_past_last_page (s : ViewState) :
  0 < reposPerPage s →
  page_count s < currentPage s →
  currentRepos s = [].
Proof.
  intros Hsize Hpast.
  pose proof (Math_ceil_div_bounds (Z.of_nat (length (repos s)))
                (reposPerPage s) Hsize ltac:(lia)) as (Hn & Hcover & _).
  fold (page_count s) in Hn, Hcover.
  unfold currentRepos, indexOfFirstRepo, indexOfLastRepo.
  rewrite Array_slice_take_drop by nia.
  rewrite drop_ge by nia. apply take_nil.
Qed.

Lemma page_count_no_repos (s : ViewState) :
  repos s = [] → page_count s = 0.
Proof.
  intros Hnil. unfold page_count, Math_ceil_div. rewrite Hnil. reflexivity.
Qed.

(** X13.  Every page that has a button is non-empty: it holds [pageSize]
    repositories, except the last, which holds the remainder. *)
Theorem currentRepos_page_length (s : ViewState) :
  0 < reposPerPage s →
  1 ≤ currentPage s ≤ page_count s →
  Z.of_nat (length (currentRepos s))
  = Z.min (reposPerPage s)
      (Z.of_nat (length (repos s)) - (currentPage s - 1) * reposPerPage s)
  ∧ 1 ≤ Z.of_nat (length (currentRepos s))
  ∧ (currentPage s < page_count s →
     Z.of_nat (length (currentRepos s)) = reposPerPage s).
Proof.
  intros Hsize Hpage.
  pose proof (Math_ceil_div_bounds (Z.of_nat (length (repos s)))
                (reposPerPage s) Hsize ltac:(lia)) as (Hn & Hcover & Hlast).
  fold (page_count s) in Hn, Hcover, Hlast.
  assert (Z.of_nat (length (repos s)) ≠ 0) as Hne.
  { intros Hz. rewrite page_count_no_repos in Hpage; [lia|].
    apply length_zero_iff_nil. lia. }
  rewrite (proj2 (Z.eqb_neq _ _) Hne) in Hlast.
  assert (Z.of_nat (length (currentRepos s))
          = Z.min (reposPerPage s)
              (Z.of_nat (length (repos s))
               - (currentPage s - 1) * reposPerPage s)) as Hlen.
  { unfold currentRepos, indexOfFirstRepo, indexOfLastRepo.
    rewrite Array_slice_take_drop by nia.
    rewrite length_take, length_drop.
    assert (0 ≤ currentPage s * reposPerPage s - reposPerPage s) by nia.
    assert ((currentPage s - 1) * reposPerPage s
            ≤ (page_count s - 1) * reposPerPage s) by nia.
    lia. }
  rewrite Hlen. split_and!; [done|nia|nia].
Qed.

Lemma elem_of_page_buttons (s : ViewState) (n : Z) :
  n ∈ page_buttons s ↔ 1 ≤ n ≤ page_count s.
Proof.
  unfold page_buttons. rewrite list_elem_of_fmap. split.
  - intros (i & -> & Hi). apply elem_of_seq in Hi. lia.
  - intros Hn. exists (Z.to_nat (n - 1)). split; [lia|].
    apply elem_of_seq. lia.
Qed.

(** X14.  The page buttons are numbered 1 to [ceil(total / pageSize)], and
    there is none exactly when there is no repository. *)
Theorem page_buttons_range (s : ViewState) :
  0 < reposPerPage s →
  (∀ n, n ∈ page_buttons s ↔ 1 ≤ n ≤ page_count s)
  ∧ (page_buttons s = [] ↔ repos s = []).
Proof.
  intros Hsize. split; [apply elem_of_page_buttons|].
  pose proof (Math_ceil_div_bounds (Z.of_nat (length (repos s)))
                (reposPerPage s) Hsize ltac:(lia)) as (Hn & Hcover & Hlast).
  fold (page_count s) in Hn, Hcover, Hlast.
  unfold page_buttons. split.
  - intros Hnil. apply fmap_nil_inv in Hnil.
    apply (f_equal length) in Hnil. rewrite length_seq in Hnil. simpl in Hnil.
    apply length_zero_iff_nil. nia.
  - intros Hnil. by rewrite page_count_no_repos.
Qed.

Lemma filter_seq_one (page : Z) (n : nat) :
  length (filter (λ index : nat, page = Z.of_nat index + 1) (seq 0 n))
  = if decide (1 ≤ page ≤ Z.of_nat n) then 1%nat else 0%nat.
Proof.
  induction n as [|n IH].
  { rewrite decide_False by (simpl; lia). reflexivity. }
  rewrite seq_S, filter_app, length_app, IH. simpl seq.
  rewrite filter_cons, filter_nil.
  repeat case_decide; simpl; lia.
Qed.

Lemma length_filter_fmap {A B : Type} (f : A → B) (P : B → Prop)
    `{!∀ b, Decision (P b)} (l : list A) :
  length (filter P (f <$> l)) = length (filter (λ a, P (f a)) l).
Proof.
  induction l as [|a l IH]; [done|].
  rewrite fmap_cons, !filter_cons. case_decide; simpl; by rewrite IH.
Qed.

(** X15.  At most one page button is highlighted: exactly one when the
    current page is one of the pages, none when it is past the last
    page. *)
Theorem pagination_buttons_highlight `{Host} (s : ViewState) :
  length (filter (λ b, button_variant b = "default") (pagination_buttons s))
  = if decide (page_in_range s) then 1%nat else 0%nat.
Proof.
  unfold pagination_buttons. rewrite length_filter_fmap.
  erewrite (list_filter_iff _ (λ index : nat, currentPage s = Z.of_nat index + 1)).
  - rewrite filter_seq_one. unfold page_in_range.
    destruct (decide (1 ≤ currentPage s ≤ page_count s)).
    + rewrite decide_True by lia. done.
    + rewrite decide_False by lia. done.
  - intros index. simpl. case_bool_decide; naive_solver.
Qed.

(** ** More on the sort *)

Section sorter_more.
Context `{Host}.

Lemma sortedRepos_of_sorted (l : list RepoData) :
  StronglySorted not_older l → sortedRepos l = l.
Proof.
  induction 1 as [|x l Hl IH Hx]; [done|].
  unfold sortedRepos in *. rewrite sorted_elements_cons, IH.
  destruct Hx as [|y l' Hxy _]; [done|]. simpl.
  unfold not_older in Hxy. unfold SortCompare, compareRepos.
  destruct (Date_getTime (updated_at x)) as [tx|]; [|done].
  destruct (Date_getTime (updated_at y)) as [ty|]; [|done]. simpl.
  destruct (Z.leb_spec (ty - tx) 0); [done|lia].
Qed.

(** X16.  Repositories that arrive most recently updated first are left
    exactly as they are, ties included. *)
Theorem sortedRepos_keeps_sorted (l : list RepoData) :
  StronglySorted not_older l → sortedRepos l = l.
Proof. apply sortedRepos_of_sorted. Qed.

(** X17.  Sorting what is already sorted changes nothing: sorting twice
    is sorting once. *)
Theorem sortedRepos_idempotent (l : list RepoData) :
  Forall valid_date l → sortedRepos (sortedRepos l) = sortedRepos l.
Proof. intros Hvalid. by apply sortedRepos_of_sorted, sortedRepos_sorted. Qed.

(** X18.  When no two repositories were updated at the same instant, the
    sorted order does not depend on the order the API sent them in. *)
Theorem sortedRepos_order_independent (l1 l2 : list RepoData) :
  l1 ≡ₚ l2 →
  Forall valid_date l1 →
  (∀ x y, x ∈ l1 → y ∈ l1 →
     Date_getTime (updated_at x) = Date_getTime (updated_at y) → x = y) →
  sortedRepos l1 = sortedRepos l2.
Proof.
  intros Hperm Hvalid Hdistinct.
  apply (StronglySorted_unique_strong not_older).
  - intros x y Hx Hy Hxy Hyx. apply Hdistinct.
    + by rewrite sortedRepos_perm in Hx.
    + by rewrite sortedRepos_perm, <- Hperm in Hy.
    + unfold not_older in *.
      destruct (Date_getTime (updated_at x)), (Date_getTime (updated_at y));
        try done. f_equal. lia.
  - by apply sortedRepos_sorted.
  - apply sortedRepos_sorted. by rewrite <- Hperm.
  - by rewrite !sortedRepos_perm.
Qed.


End sorter_more.

(** ** More on the language tally *)

Section aggregator_more.
Context `{Host}.

(** X20.  Whatever the languages are, no language has two tallies, and
    the languages that have a tally are those of the repositories, the
    empty string and [__proto__] left out. *)
Theorem donutChartData_languages_tallied (repos : list RepoData) :
  NoDup (tally_language <$> donutChartData repos)
  ∧ ∀ k, k ∈ tally_language <$> donutChartData repos
         ↔ k ≠ "" ∧ k ≠ "__proto__" ∧ ∃ r, r ∈ repos ∧ language r = Some k.
Proof.
  assert (tally_language <$> donutChartData repos
          ≡ₚ first_occurrences
               (filter (λ k, k ≠ "__proto__") (languages_of repos))) as Hperm.
  { rewrite donutChartData_languages. unfold Object_keys.
    rewrite languageUsage_keys. apply order_keys_perm. }
  split.
  - rewrite Hperm. apply NoDup_first_occurrences.
  - intros k. rewrite Hperm, elem_of_first_occurrences, list_elem_of_filter,
      elem_of_languages_of. naive_solver.
Qed.

Lemma append_empty (a b : string) : a +:+ b = "" → b = "".
Proof. destruct a; [done|discriminate]. Qed.

Lemma ones_not_empty (a : string) (n : nat) : a +:+ ones (S n) ≠ "".
Proof.
  intros Heq. apply append_empty in Heq. simpl in Heq.
  by apply append_empty in Heq.
Qed.

(** The property under an inherited name: absent before the first
    repository with that language, then the member's text followed by one
    digit 1 per repository. *)
Lemma foldl_tally_step_inherited (k : string) (acc : JSObject)
    (repos : list RepoData) (n : nat) :
  k ∈ Object_prototype_names → k ≠ "__proto__" → k ≠ "" →
  own_lookup acc k
  = match n with
    | O => None
    | S _ => Some (VStr (member_text k +:+ ones n))
    end →
  own_lookup (foldl tally_step acc repos) k
  = match (n + length (filter (uses_language k) repos))%nat with
    | O => None
    | S _ => Some (VStr (member_text k
                         +:+ ones (n + length (filter (uses_language k) repos))))
    end.
Proof.
  intros Hin Hproto Hempty. revert acc n.
  induction repos as [|r repos IH]; intros acc n Hacc.
  { simpl. by rewrite Nat.add_0_r. }
  simpl foldl. rewrite filter_cons.
  destruct (decide (uses_language k r)) as [Hu|Hu].
  - simpl length. rewrite Nat.add_succ_r. apply (IH _ (S n)).
    unfold tally_step. rewrite Hu. unfold truthy at 1.
    rewrite bool_decide_false by done. simpl negb. cbv iota.
    unfold Set_. rewrite bool_decide_false by done.
    rewrite own_lookup_set, decide_True by done. do 2 f_equal.
    unfold Get. rewrite Hacc. destruct n as [|n].
    + rewrite bool_decide_true by done. reflexivity.
    + unfold or_else, truthy.
      rewrite bool_decide_false by apply ones_not_empty.
      simpl. by rewrite append_assoc.
  - apply IH.
    unfold tally_step, uses_language in *.
    destruct (language r) as [lang|]; [|done].
    destruct (truthy (VStr lang)); [|done].
    unfold Set_. case_bool_decide; [done|].
    rewrite own_lookup_set, decide_False by congruence. done.
Qed.

(** X21.  A language named like a member of [Object.prototype] other than
    [__proto__] is not counted with a number: its tally is the text of the
    inherited member followed by one digit 1 for each repository with
    that language. *)
Theorem languageUsage_inherited_name (k : string) (repos : list RepoData) :
  k ∈ Object_prototype_names →
  k ≠ "__proto__" →
  (∃ r, r ∈ repos ∧ language r = Some k) →
  Get (languageUsage repos) k
  = VStr (member_text k +:+ ones (length (filter (uses_language k) repos))).
Proof.
  intros Hin Hproto (r & Hr & Hlang).
  assert (k ≠ "") as Hempty.
  { intros ->. revert Hin. apply (bool_decide_unpack _). by vm_compute. }
  pose proof (foldl_tally_step_inherited k [] repos 0 Hin Hproto Hempty
                eq_refl) as Hown.
  fold (languageUsage repos) in Hown. simpl in Hown.
  assert (r ∈ filter (uses_language k) repos) as Hfilter
    by (by apply list_elem_of_filter).
  unfold Get. rewrite Hown.
  destruct (filter (uses_language k) repos); [set_solver|]. done.
Qed.

End aggregator_more.

(** ** The further properties on concrete inputs *)

Lemma fetchGitHubData_success_witness :
  search (Examples.serving Examples.ada [Examples.repoA; Examples.repoB])
    (Examples.typed "ada")
  = {| view :=
         {| username := "ada";
            data := Some Examples.ada;
            repos := sortedRepos [Examples.repoA; Examples.repoB];
            error := "";
            loading := false;
            currentPage := 1;
            reposPerPage := 10;
            aiSummary := summary_text Examples.ada
                           (sortedRepos [Examples.repoA; Examples.repoB]) |};
       requests := [profile_url "ada"; repos_url Examples.ada] |}.
Proof.
  apply (fetchGitHubData_success
           (Examples.serving Examples.ada [Examples.repoA; Examples.repoB])
           (Examples.typed "ada")
           {| ok := true; json := Fulfilled Examples.ada |} Examples.ada
           {| ok := true;
              json := Fulfilled [Examples.repoA; Examples.repoB] |}
           [Examples.repoA; Examples.repoB]);
    [discriminate|reflexivity..|].
  repeat constructor; vm_compute; eauto.
Defined.

Lemma fetchGitHubData_error_clears_witness :
  data (view (search Examples.offline (Examples.typed "ada"))) = None
  ∧ repos (view (search Examples.offline (Examples.typed "ada"))) = []
  ∧ aiSummary (view (search Examples.offline (Examples.typed "ada"))) = "".
Proof.
  apply (fetchGitHubData_error_clears Examples.offline (Examples.typed "ada"));
    discriminate.
Defined.

Lemma fetchGitHubData_rejection_witness :
  view (search Examples.offline (Examples.typed "ada"))
  = setLoading false
      (setError "Failed to fetch" (cleared (Examples.typed "ada"))).
Proof.
  apply (fetchGitHubData_rejection Examples.offline (Examples.typed "ada")
           "Failed to fetch").
  - discriminate.
  - left. reflexivity.
Defined.

Lemma fetchGitHubData_waiting_witness :
  view (search (Examples.hanging_repos Examples.ada) Examples.loaded)
  = cleared Examples.loaded
  ∧ ¬ completes (Examples.hanging_repos Examples.ada) Examples.loaded.
Proof.
  apply (fetchGitHubData_waiting (Examples.hanging_repos Examples.ada)
           Examples.loaded).
  - discriminate.
  - right. exists {| ok := true; json := Fulfilled Examples.ada |}.
    split_and!; [reflexivity..|]. right. exists Examples.ada.
    split; [reflexivity|]. left. reflexivity.
Defined.

Lemma fetchGitHubData_requests_witness :
  requests (search Examples.no_user (Examples.typed "ada"))
  = [profile_url (username (Examples.typed "ada"))]
  ∨ ∃ res userData,
      user_endpoint Examples.no_user
        (profile_url (username (Examples.typed "ada"))) = Fulfilled res
      ∧ ok res = true
      ∧ json res = Fulfilled userData
      ∧ requests (search Examples.no_user (Examples.typed "ada"))
        = [profile_url (username (Examples.typed "ada")); repos_url userData].
Proof.
  apply (fetchGitHubData_requests Examples.no_user (Examples.typed "ada")).
  discriminate.
Defined.

Lemma search_discards_previous_witness :
  data (view (search Examples.no_user (setUsername "ada" Examples.loaded)))
  = data (view (search Examples.no_user (Examples.typed "ada")))
  ∧ repos (view (search Examples.no_user (setUsername "ada" Examples.loaded)))
    = repos (view (search Examples.no_user (Examples.typed "ada")))
  ∧ error (view (search Examples.no_user (setUsername "ada" Examples.loaded)))
    = error (view (search Examples.no_user (Examples.typed "ada")))
  ∧ aiSummary (view (search Examples.no_user (setUsername "ada" Examples.loaded)))
    = aiSummary (view (search Examples.no_user (Examples.typed "ada")))
  ∧ requests (search Examples.no_user (setUsername "ada" Examples.loaded))
    = requests (search Examples.no_user (Examples.typed "ada")).
Proof.
  apply (search_discards_previous Examples.no_user (Examples.typed "ada")
           (setUsername "ada" Examples.loaded)).
  - discriminate.
  - reflexivity.
Defined.


Lemma currentRepos_past_last_page_witness : currentRepos Examples.stale = [].
Proof.
  apply (currentRepos_past_last_page Examples.stale); by vm_compute.
Defined.

Lemma currentRepos_page_length_witness :
  Z.of_nat (length (currentRepos (paginate 2 Examples.loaded)))
  = Z.min (reposPerPage (paginate 2 Examples.loaded))
      (Z.of_nat (length (repos (paginate 2 Examples.loaded)))
       - (currentPage (paginate 2 Examples.loaded) - 1)
         * reposPerPage (paginate 2 Examples.loaded))
  ∧ 1 ≤ Z.of_nat (length (currentRepos (paginate 2 Examples.loaded)))
  ∧ (currentPage (paginate 2 Examples.loaded)
     < page_count (paginate 2 Examples.loaded) →
     Z.of_nat (length (currentRepos (paginate 2 Examples.loaded)))
     = reposPerPage (paginate 2 Examples.loaded)).
Proof.
  apply (currentRepos_page_length (paginate 2 Examples.loaded)).
  - reflexivity.
  - split; by vm_compute.
Defined.

Lemma page_buttons_range_witness :
  (∀ n, n ∈ page_buttons Examples.loaded ↔ 1 ≤ n ≤ page_count Examples.loaded)
  ∧ (page_buttons Examples.loaded = [] ↔ repos Examples.loaded = []).
Proof. apply (page_buttons_range Examples.loaded). reflexivity. Defined.

Lemma sortedRepos_keeps_sorted_witness :
  sortedRepos [Examples.repoB; Examples.repoA]
  = [Examples.repoB; Examples.repoA].
Proof.
  apply (sortedRepos_keeps_sorted [Examples.repoB; Examples.repoA]).
  repeat constructor. by vm_compute.
Defined.

Lemma sortedRepos_idempotent_witness :
  sortedRepos (sortedRepos [Examples.repoA; Examples.repoB])
  = sortedRepos [Examples.repoA; Examples.repoB].
Proof.
  apply (sortedRepos_idempotent [Examples.repoA; Examples.repoB]).
  repeat constructor; vm_compute; eauto.
Defined.

Lemma sortedRepos_order_independent_witness :
  sortedRepos [Examples.repoA; Examples.repoB]
  = sortedRepos [Examples.repoB; Examples.repoA].
Proof.
  apply (sortedRepos_order_independent [Examples.repoA; Examples.repoB]
           [Examples.repoB; Examples.repoA]).
  - apply Permutation_swap.
  - repeat constructor; vm_compute; eauto.
  - intros x y Hx Hy Ht.
    apply elem_of_cons in Hx as [->|Hx]; [|apply list_elem_of_singleton in Hx as ->];
      (apply elem_of_cons in Hy as [->|Hy];
       [|apply list_elem_of_singleton in Hy as ->]);
      try reflexivity; vm_compute in Ht; discriminate.
Defined.


Lemma languageUsage_inherited_name_witness :
  Get (languageUsage [Examples.repoT; Examples.repoA; Examples.repoT]) "toString"
  = VStr (member_text "toString"
          +:+ ones (length (filter (uses_language "toString")
                              [Examples.repoT; Examples.repoA; Examples.repoT]))).
Proof.
  apply (languageUsage_inherited_name "toString"
           [Examples.repoT; Examples.repoA; Examples.repoT]).
  - apply (bool_decide_unpack _). vm_compute. exact I.
  - discriminate.
  - exists Examples.repoT. split; [left|reflexivity].
Defined.

(** X23.  Whatever the current page is, the repositories shown are a
    stretch of consecutive repositories of the list, in the list's order:
    the table never shows a repository that is not loaded and never
    reorders. *)
Theorem currentRepos_contiguous (s : ViewState) :
  ∃ before after, repos s = before ++ currentRepos s ++ after.
Proof.
  unfold currentRepos, Array_slice. cbv zeta.
  match goal with
  | |- context [take ?m (drop ?k _)] =>
      exists (take k (repos s)), (drop m (drop k (repos s)))
  end.
  by rewrite take_drop, take_drop.
Qed.

(** ** Searches that overlap *)

Section overlapping_facts.
Context `{Host}.

Lemma resume_coherent (t : Task) (v : ViewState) :
  coherent v → coherent (resume t v).1.2.
Proof.
  intros (Hsize & Hpage & Herr & Hdata). unfold resume.
  destruct (awaiting t) as [url|res|userData|userData reposRes].
  - destruct (user_endpoint _ _) as [res| |]; [destruct (ok res)|..];
      unfold coherent, caught; simpl; try done;
      split_and!; try done; destruct (data v); naive_solver.
  - destruct (json res) as [userData| |];
      unfold coherent, caught; simpl; try done;
      split_and!; try done; destruct (data v); naive_solver.
  - destruct (repos_endpoint _ _) as [reposRes| |]; [destruct (ok reposRes)|..];
      unfold coherent, caught; simpl; try done;
      split_and!; try done; destruct (data v); naive_solver.
  - destruct (json reposRes) as [reposData| |];
      unfold coherent, caught; simpl; try done;
      split_and!; try done; destruct (data v); naive_solver.
Qed.

Lemma on_event_coherent (app : App) (e : Event) :
  coherent (app_view app) → coherent (app_view (on_event app e)).
Proof.
  intros Hv. destruct e as [[u|net|n]|i]; simpl.
  - done.
  - unfold start_search. case_bool_decide; [done|].
    destruct Hv as (Hsize & Hpage & Herr & Hdata).
    unfold coherent. simpl. split_and!; done.
  - destruct (page_button_shown n (app_view app)) eqn:Hshown; [|done].
    destruct Hv as (Hsize & Hpage & Herr & Hdata).
    unfold coherent. simpl. split_and!; try done.
    unfold page_button_shown in Hshown.
    apply andb_prop in Hshown as [_ Hn%bool_decide_eq_true].
    unfold page_buttons in Hn. apply list_elem_of_fmap in Hn as (j & -> & _).
    lia.
  - unfold settle. destruct (app_tasks app !! i) as [t|]; [|done].
    pose proof (resume_coherent t _ Hv) as Hr.
    destruct (resume t (app_view app)) as [[t' v'] issued]. done.
Qed.

Lemma play_coherent (events : list Event) : coherent (app_view (play events)).
Proof.
  assert (coherent (app_view initialApp)) as Hinit.
  { unfold coherent. simpl. split_and!; done || lia. }
  unfold play. revert Hinit. generalize initialApp.
  induction events as [|e events IH]; intros app Happ; simpl; [done|].
  apply IH. by apply on_event_coherent.
Qed.

(** X7.  Whatever the user does and in whatever order the requests of
    the searches in flight are answered: whenever a profile is in the
    view, loading is over and the summary is the sentence generated from
    that profile and the repositories in the view. *)
Theorem overlapping_profile_summary (events : list Event) (d : GitHubData) :
  data (app_view (play events)) = Some d →
  loading (app_view (play events)) = false
  ∧ aiSummary (app_view (play events))
    = summary_text d (repos (app_view (play events))).
Proof.
  intros Hd. destruct (play_coherent events) as (_ & _ & _ & Hdata).
  by rewrite Hd in Hdata.
Qed.

(** X9.  Whatever happens in whatever order, an error message is never on
    the screen together with the skeleton. *)
Theorem overlapping_error_no_skeleton (events : list Event) (e : string) :
  error_line (render (app_view (play events))) = Some e →
  e = error (app_view (play events))
  ∧ body (render (app_view (play events))) ≠ Skeleton.
Proof.
  destruct (play_coherent events) as (_ & _ & Herr & _).
  unfold render. simpl. case_bool_decide as Hempty; simpl; [done|].
  intros [= <-]. split; [done|]. rewrite Herr by done.
  by destruct (data _).
Qed.

(** X10.  Whatever happens in whatever order, when the profile section is
    on the screen its summary card shows the generated sentence, never
    the text "No summary available.". *)
Theorem overlapping_summary_present (events : list Event) (pv : ProfileView) :
  body (render (app_view (play events))) = Profile pv →
  summary_card pv = aiSummary (app_view (play events))
  ∧ summary_card pv ≠ "No summary available.".
Proof.
  destruct (play_coherent events) as (_ & _ & _ & Hdata).
  unfold render. simpl. destruct (loading _); [done|].
  destruct (data _) as [d|]; [|done].
  destruct Hdata as (_ & Hsum). intros [= <-]. simpl.
  unfold summary_shown, truthy.
  rewrite (bool_decide_false (aiSummary _ = ""))
    by (rewrite Hsum; apply summary_text_not_empty).
  simpl negb. cbv iota. split; [done|]. rewrite Hsum.
  intros Heq.
  pose proof (summary_text_first d (repos (app_view (play events)))) as Hfirst.
  rewrite Heq in Hfirst. discriminate.
Qed.

Lemma settle_last (ts : list Task) (t : Task) (v : ViewState)
    (rq : list string) :
  settle (length ts)
    {| app_view := v; app_tasks := ts ++ [t]; app_requests := rq |}
  = match resume t v with
    | (Some t', v', issued) =>
        {| app_view := v'; app_tasks := ts ++ [t'];
           app_requests := rq ++ issued |}
    | (None, v', issued) =>
        {| app_view := v'; app_tasks := ts; app_requests := rq ++ issued |}
    end.
Proof.
  unfold settle. simpl. rewrite list_lookup_middle by done.
  destruct (resume t v) as [[[t'|] v'] issued]; f_equal.
  - rewrite insert_app_r_alt by done. by rewrite Nat.sub_diag.
  - rewrite delete_middle. apply app_nil_r.
Qed.

Lemma settle_none (ts : list Task) (v : ViewState) (rq : list string) :
  settle (length ts) {| app_view := v; app_tasks := ts; app_requests := rq |}
  = {| app_view := v; app_tasks := ts; app_requests := rq |}.
Proof. unfold settle. simpl. by rewrite lookup_ge_None_2. Qed.

Ltac settle_rest :=
  repeat first
    [ rewrite settle_none
    | rewrite settle_last; unfold resume; simpl;
      repeat match goal with
             | Heq : ?x = Pending |- context [?x] => rewrite Heq
             end;
      simpl ].

Lemma search_in_turn (net : Network) (app : App) :
  ∃ ts,
    foldl on_event app
      [User (ClickSearch net); Settle (length (app_tasks app));
       Settle (length (app_tasks app)); Settle (length (app_tasks app));
       Settle (length (app_tasks app))]
    = {| app_view := view (search net (app_view app));
         app_tasks := ts;
         app_requests :=
           app_requests app ++ requests (search net (app_view app)) |}.
Proof.
  destruct app as [v ts rq]. simpl. unfold start_search, search. simpl.
  run_proc. case_bool_decide as Hname.
  { settle_rest. eexists. simpl. by rewrite app_nil_r. }
  rewrite settle_last. unfold resume. simpl.
  destruct (user_endpoint net _) as [res| |] eqn:Huser; simpl;
    [|settle_rest; eexists; by rewrite ?app_nil_r..].
  destruct (ok res) eqn:Hok; simpl;
    [|settle_rest; eexists; by rewrite ?app_nil_r].
  rewrite settle_last. unfold resume. simpl.
  destruct (json res) as [userData| |] eqn:Hjson; simpl;
    [|settle_rest; eexists; by rewrite ?app_nil_r..].
  rewrite settle_last. unfold resume. simpl.
  destruct (repos_endpoint net _) as [reposRes| |] eqn:Hrepos; simpl;
    [|settle_rest; eexists; by rewrite <- ?app_assoc, ?app_nil_r..].
  destruct (ok reposRes) eqn:Hok'; simpl;
    [|settle_rest; eexists; by rewrite <- ?app_assoc, ?app_nil_r].
  rewrite settle_last. unfold resume. simpl.
  destruct (json reposRes) as [reposData| |] eqn:Hjson'; simpl;
    eexists; by rewrite <- ?app_assoc, ?app_nil_r.
Qed.

(** X25.  A search whose four promises settle before anything else
    happens leaves the view, and issues the requests, of the search run
    in one go: the searches of [step] are the overlapping searches that
    nothing interrupts. *)
Theorem search_without_interference (net : Network) (app : App) :
  app_view
    (foldl on_event app
       [User (ClickSearch net); Settle (length (app_tasks app));
        Settle (length (app_tasks app)); Settle (length (app_tasks app));
        Settle (length (app_tasks app))])
  = view (search net (app_view app))
  ∧ app_requests
      (foldl on_event app
         [User (ClickSearch net); Settle (length (app_tasks app));
          Settle (length (app_tasks app)); Settle (length (app_tasks app));
          Settle (length (app_tasks app))])
    = app_requests app ++ requests (search net (app_view app)).
Proof. destruct (search_in_turn net app) as [ts ->]. done. Qed.

Lemma settle_only (t : Task) (v : ViewState) (rq : list string) :
  settle 0 {| app_view := v; app_tasks := [t]; app_requests := rq |}
  = match resume t v with
    | (Some t', v', issued) =>
        {| app_view := v'; app_tasks := [t']; app_requests := rq ++ issued |}
    | (None, v', issued) =>
        {| app_view := v'; app_tasks := []; app_requests := rq ++ issued |}
    end.
Proof. apply (settle_last [] t). Qed.

Lemma settle_second (t1 t2 : Task) (v : ViewState) (rq : list string) :
  settle 1 {| app_view := v; app_tasks := [t1; t2]; app_requests := rq |}
  = match resume t2 v with
    | (Some t', v', issued) =>
        {| app_view := v'; app_tasks := [t1; t'];
           app_requests := rq ++ issued |}
    | (None, v', issued) =>
        {| app_view := v'; app_tasks := [t1]; app_requests := rq ++ issued |}
    end.
Proof. apply (settle_last [t1] t2). Qed.

Lemma resume_profile (net : Network) (url : string)
    (res : Response GitHubData) (v : ViewState) :
  user_endpoint net url = Fulfilled res →
  resume {| task_network := net; awaiting := AwaitingProfile url |} v
  = if ok res
    then (Some {| task_network := net; awaiting := AwaitingProfileBody res |},
          v, [])
    else (None, caught "User not found" v, []).
Proof. intros Hres. unfold resume. simpl. rewrite Hres. by destruct (ok res). Qed.

Lemma resume_profile_body (net : Network) (res : Response GitHubData)
    (userData : GitHubData) (v : ViewState) :
  json res = Fulfilled userData →
  resume {| task_network := net; awaiting := AwaitingProfileBody res |} v
  = (Some {| task_network := net; awaiting := AwaitingRepos userData |},
     v, [repos_url userData]).
Proof. intros Hjson. unfold resume. simpl. by rewrite Hjson. Qed.

Lemma resume_repos (net : Network) (userData : GitHubData)
    (reposRes : Response (list RepoData)) (v : ViewState) :
  repos_endpoint net (repos_url userData) = Fulfilled reposRes →
  resume {| task_network := net; awaiting := AwaitingRepos userData |} v
  = if ok reposRes
    then (Some {| task_network := net;
                  awaiting := AwaitingReposBody userData reposRes |}, v, [])
    else (None, caught "Repositories not found" v, []).
Proof.
  intros Hres. unfold resume. simpl. rewrite Hres. by destruct (ok reposRes).
Qed.

Lemma resume_repos_body (net : Network) (userData : GitHubData)
    (reposRes : Response (list RepoData)) (reposData : list RepoData)
    (v : ViewState) :
  json reposRes = Fulfilled reposData →
  resume {| task_network := net;
            awaiting := AwaitingReposBody userData reposRes |} v
  = (None,
     setLoading false
       (generateAiSummary userData (sortedRepos reposData)
          (setRepos (sortedRepos reposData) (setData (Some userData) v))),
     []).
Proof. intros Hjson. unfold resume. simpl. by rewrite Hjson. Qed.

(** X24.  The race: when a second search fails while a first one is still
    waiting, and the answers to the first arrive afterwards, the view
    ends with the second identifier, the second search's error, and the
    first search's profile and repositories together. *)
Theorem late_answer_overwrites (net1 net2 : Network) (u1 u2 : string)
    (res : Response GitHubData) (userData : GitHubData)
    (reposRes : Response (list RepoData)) (reposData : list RepoData)
    (res2 : Response GitHubData) :
  u1 ≠ "" → u2 ≠ "" →
  user_endpoint net1 (profile_url u1) = Fulfilled res →
  ok res = true → json res = Fulfilled userData →
  repos_endpoint net1 (repos_url userData) = Fulfilled reposRes →
  ok reposRes = true → json reposRes = Fulfilled reposData →
  Forall valid_date reposData →
  user_endpoint net2 (profile_url u2) = Fulfilled res2 →
  ok res2 = false →
  let app :=
    play [User (TypeUsername u1); User (ClickSearch net1);
          User (TypeUsername u2); User (ClickSearch net2);
          Settle 1; Settle 0; Settle 0; Settle 0; Settle 0] in
  username (app_view app) = u2
  ∧ error (app_view app) = "User not found"
  ∧ data (app_view app) = Some userData
  ∧ repos (app_view app) = sortedRepos reposData
  ∧ aiSummary (app_view app) = summary_text userData (sortedRepos reposData)
  ∧ app_tasks app = [].
Proof.
  intros Hu1 Hu2 Hres Hok Hjson Hrepos Hok' Hjson' _ Hres2 Hok2.
  assert (play [User (TypeUsername u1); User (ClickSearch net1);
                User (TypeUsername u2); User (ClickSearch net2)]
          = {| app_view :=
                 cleared (setUsername u2 (cleared (setUsername u1 initialState)));
               app_tasks :=
                 [ {| task_network := net1;
                      awaiting := AwaitingProfile (profile_url u1) |};
                   {| task_network := net2;
                      awaiting := AwaitingProfile (profile_url u2) |} ];
               app_requests := [profile_url u1; profile_url u2] |}) as Hstart.
  { unfold play. simpl. unfold start_search. simpl.
    rewrite !bool_decide_false by done. simpl.
    rewrite ?bool_decide_false by done. done. }
  change (play [User (TypeUsername u1); User (ClickSearch net1);
                User (TypeUsername u2); User (ClickSearch net2);
                Settle 1; Settle 0; Settle 0; Settle 0; Settle 0])
    with (settle 0 (settle 0 (settle 0 (settle 0 (settle 1
            (play [User (TypeUsername u1); User (ClickSearch net1);
                   User (TypeUsername u2); User (ClickSearch net2)])))))).
  rewrite Hstart.
  rewrite settle_second, (resume_profile _ _ _ _ Hres2), Hok2.
  rewrite settle_only, (resume_profile _ _ _ _ Hres), Hok.
  rewrite settle_only, (resume_profile_body _ _ _ _ Hjson).
  rewrite settle_only, (resume_repos _ _ _ _ Hrepos), Hok'.
  rewrite settle_only, (resume_repos_body _ _ _ _ _ Hjson').
  done.
Qed.

End overlapping_facts.

Lemma overlapping_profile_summary_witness :
  loading (app_view (play Examples.overtaken)) = false
  ∧ aiSummary (app_view (play Examples.overtaken))
    = summary_text Examples.ada (repos (app_view (play Examples.overtaken))).
Proof.
  apply (overlapping_profile_summary Examples.overtaken Examples.ada).
  reflexivity.
Defined.

Lemma overlapping_error_no_skeleton_witness :
  "User not found" = error (app_view (play Examples.overtaken))
  ∧ body (render (app_view (play Examples.overtaken))) ≠ Skeleton.
Proof.
  apply (overlapping_error_no_skeleton Examples.overtaken "User not found").
  reflexivity.
Defined.

Lemma overlapping_summary_present_witness :
  summary_card
    (profile_view Examples.ada (app_view (play Examples.overtaken)))
  = aiSummary (app_view (play Examples.overtaken))
  ∧ summary_card
      (profile_view Examples.ada (app_view (play Examples.overtaken)))
    ≠ "No summary available.".
Proof.
  apply (overlapping_summary_present Examples.overtaken
           (profile_view Examples.ada (app_view (play Examples.overtaken)))).
  vm_compute. reflexivity.
Defined.

Lemma late_answer_overwrites_witness :
  username (app_view (play Examples.overtaken)) = "nobody"
  ∧ error (app_view (play Examples.overtaken)) = "User not found"
  ∧ data (app_view (play Examples.overtaken)) = Some Examples.ada
  ∧ repos (app_view (play Examples.overtaken))
    = sortedRepos [Examples.repoA; Examples.repoB]
  ∧ aiSummary (app_view (play Examples.overtaken))
    = summary_text Examples.ada (sortedRepos [Examples.repoA; Examples.repoB])
  ∧ app_tasks (play Examples.overtaken) = [].
Proof.
  apply (late_answer_overwrites
           (Examples.serving Examples.ada [Examples.repoA; Examples.repoB])
           Examples.no_user "ada" "nobody"
           {| ok := true; json := Fulfilled Examples.ada |} Examples.ada
           {| ok := true;
              json := Fulfilled [Examples.repoA; Examples.repoB] |}
           [Examples.repoA; Examples.repoB]
           {| ok := false; json := Rejected "" |});
    try discriminate; try reflexivity.
  repeat constructor; vm_compute; eauto.
Defined.
